(** * The command-line assistant of ThingEngine ([assistant.js])

    A shallow embedding of [assistant.js]: the line dispatcher [_onLine],
    its command handlers, the renderer delegate and the two-phase OAuth
    pairing, together with the part of the JavaScript run time they rely on
    (string primitives, [parseInt], [JSON.stringify], promises chained with
    [then] and closed with [done]). *)

From Stdlib Require Import String Ascii ZArith List Bool Lia.
Import ListNotations.
Open Scope string_scope.
Set Warnings "-register-all".

(** ** JavaScript strings

    A [string] stands for a JavaScript string whose code units are below
    256, one [ascii] per code unit. *)
Module Js.

(** A primitive that is a string, [undefined] or [null]: what an element of
    a spread argument list, [line[i]] or [this._oauthKind] can be. *)
Inductive jsval :=
| js_undefined
| js_null
| js_string (s : string).

(** [ToString] on such a value, as used by [+] with a string operand. *)
Definition to_string (v : jsval) : string :=
  match v with
  | js_undefined => "undefined"
  | js_null => "null"
  | js_string s => s
  end.

(** [v === 'lit'] *)
Definition is_str (v : jsval) (lit : string) : bool :=
  match v with
  | js_string s => String.eqb s lit
  | _ => false
  end.

(** Truthiness, for [!app] and [a || b]. *)
Definition truthy (v : jsval) : bool :=
  match v with
  | js_string s => negb (String.eqb s "")
  | _ => false
  end.

(** [s[i]]: the one-character string at index [i], or [undefined]. *)
Definition char_at (s : string) (i : nat) : jsval :=
  match String.get i s with
  | Some c => js_string (String c "")
  | None => js_undefined
  end.

(** [s.substr(n)] for [n >= 0]. *)
Fixpoint substr (n : nat) (s : string) : string :=
  match n, s with
  | O, _ => s
  | S n', String _ r => substr n' r
  | S _, EmptyString => ""
  end.

Definition space : ascii := " "%char.

(** [s.split(' ')]: cut at every single space; never an empty list. *)
Fixpoint split_space (s : string) : list string :=
  match s with
  | EmptyString => [""]
  | String c r =>
      if Ascii.eqb c space then "" :: split_space r
      else match split_space r with
           | h :: t => String c h :: t
           | [] => [String c ""]
           end
  end.

(** The i-th actual argument of a call [f(...args)]. *)
Definition arg (i : nat) (args : list string) : jsval :=
  match nth_error args i with
  | Some s => js_string s
  | None => js_undefined
  end.

(** White space and line terminators of ECMAScript among the code units
    below 256: TAB, LF, VT, FF, CR, SP and NBSP. *)
Definition is_white (c : ascii) : bool :=
  let n := nat_of_ascii c in
  ((9 <=? n) && (n <=? 13) || (n =? 32) || (n =? 160))%nat.

Fixpoint trim_start (s : string) : string :=
  match s with
  | String c r => if is_white c then trim_start r else s
  | EmptyString => ""
  end.

Fixpoint trim_end (s : string) : string :=
  match s with
  | String c r =>
      let r' := trim_end r in
      if is_white c && String.eqb r' "" then "" else String c r'
  | EmptyString => ""
  end.

(** [s.trim()] *)
Definition trim (s : string) : string := trim_end (trim_start s).

(** A string in a condition: true when it is not empty. *)
Definition nonempty (s : string) : bool := negb (String.eqb s "").

(** ** Numbers

    [parseInt] returns NaN, an infinity or a double whose value is an
    integer; only these are needed.  [finite neg m] is the double of value
    [m] (or [-m] when [neg]), with [0 <= m]; [finite true 0] is [-0]. *)
Inductive number :=
| NaN
| infinite (neg : bool)
| finite (neg : bool) (m : Z).

(** The double nearest to the integer [x > 0], ties to even: a 53-bit
    significand.  [None] when the result is out of range (an infinity). *)
Definition round_double (x : Z) : option Z :=
  let e := (Z.log2 x - 52)%Z in
  if (e <=? 0)%Z then Some x
  else
    let q := Z.shiftr x e in
    let r := (x - Z.shiftl q e)%Z in
    let half := Z.shiftl 1 (e - 1) in
    let q' := if (r <? half)%Z then q
              else if (half <? r)%Z then (q + 1)%Z
              else if Z.even q then q else (q + 1)%Z in
    let y := Z.shiftl q' e in
    if (y <? 2 ^ 1024)%Z then Some y else None.

(** The Number value for the integer [sign * m], [0 <= m]. *)
Definition to_number (neg : bool) (m : Z) : number :=
  if (m =? 0)%Z then finite neg 0
  else match round_double m with
       | Some y => finite neg y
       | None => infinite neg
       end.

(** The value of a digit in the given radix (10 or 16). *)
Definition digit_value (radix : Z) (c : ascii) : option Z :=
  let n := Z.of_nat (nat_of_ascii c) in
  let v := if (48 <=? n)%Z && (n <=? 57)%Z then Some (n - 48)%Z
           else if (97 <=? n)%Z && (n <=? 122)%Z then Some (n - 87)%Z
           else if (65 <=? n)%Z && (n <=? 90)%Z then Some (n - 55)%Z
           else None in
  match v with
  | Some d => if (d <? radix)%Z then Some d else None
  | None => None
  end.

(** The integer written by the longest prefix of digits of [s], continuing
    from [acc]; [None] when there is no digit at all. *)
Fixpoint parse_digits (radix : Z) (s : string) (acc : option Z) : option Z :=
  match s with
  | String c r =>
      match digit_value radix c with
      | Some d =>
          parse_digits radix r
            (Some (match acc with Some a => a * radix + d | None => d end)%Z)
      | None => acc
      end
  | EmptyString => acc
  end.

(** A leading sign, and a leading [0x] or [0X]. *)
Definition read_sign (s : string) : bool * string :=
  match s with
  | String "-" r => (true, r)
  | String "+" r => (false, r)
  | _ => (false, s)
  end.

Definition read_radix (s : string) : Z * string :=
  match s with
  | String "0" (String "x" r) => (16%Z, r)
  | String "0" (String "X" r) => (16%Z, r)
  | _ => (10%Z, s)
  end.

(** [parseInt(s)], no radix given: leading white space is skipped, a sign
    is read, a [0x] or [0X] prefix selects radix 16, and the longest prefix
    of digits is the value, rounded to a double; no digit gives NaN. *)
Definition parseInt (s : string) : number :=
  let (neg, s2) := read_sign (trim_start s) in
  let (radix, s3) := read_radix s2 in
  match parse_digits radix s3 None with
  | Some m => to_number neg m
  | None => NaN
  end.

(** The decimal digits of [n >= 0], most significant first. *)
Definition digit_char (d : Z) : ascii := ascii_of_nat (48 + Z.to_nat d).

Fixpoint digits_fuel (fuel : nat) (n : Z) (acc : string) : string :=
  match fuel with
  | O => acc
  | S f =>
      let acc' := String (digit_char (n mod 10)) acc in
      if (n <? 10)%Z then acc' else digits_fuel f (n / 10) acc'
  end.

Definition decimal (n : Z) : string :=
  digits_fuel (S (Z.to_nat (Z.log2 n))) n "".

(** [Number::toString] on a positive double [x] of integer value: the
    integers [n], [k], [s] with [10^(k-1) <= s < 10^k], [s * 10^(n-k)]
    rounding to [x] and [k] as small as possible; among several [s] the one
    nearest to [x], the even one on a tie. *)
Definition valid (x n k s : Z) : bool :=
  ((10 ^ (k - 1) <=? s) && (s <? 10 ^ k))%Z &&
  match round_double (s * 10 ^ (n - k)) with
  | Some y => (y =? x)%Z
  | None => false
  end.

Definition candidates (x d k : Z) : list (Z * Z) :=
  filter (fun c => valid x (fst c) k (snd c))
    [ (d, x / 10 ^ (d - k)); (d, x / 10 ^ (d - k) + 1);
      (d + 1, x / 10 ^ (d + 1 - k)); (d + 1, x / 10 ^ (d + 1 - k) + 1) ]%Z.

Definition distance (x k : Z) (c : Z * Z) : Z :=
  Z.abs (snd c * 10 ^ (fst c - k) - x).

Definition better (x k : Z) (c1 c2 : Z * Z) : bool :=
  (distance x k c1 <? distance x k c2)%Z
  || (distance x k c1 =? distance x k c2)%Z && Z.even (snd c1).

Fixpoint closest (x k : Z) (l : list (Z * Z)) : option (Z * Z) :=
  match l with
  | [] => None
  | c :: r =>
      match closest x k r with
      | None => Some c
      | Some c' => if better x k c c' then Some c else Some c'
      end
  end.

(** The first [k] of [ks] with a candidate, as [(k, (n, s))]. *)
Fixpoint shortest (x d : Z) (ks : list Z) : option (Z * (Z * Z)) :=
  match ks with
  | [] => None
  | k :: r =>
      match closest x k (candidates x d k) with
      | Some c => Some (k, c)
      | None => shortest x d r
      end
  end.

(** The text for [n], [k], [s]: up to 21 digits the digits of [s] followed
    by [n - k] zeros, which are the digits of [s * 10^(n-k)]; above, the
    exponent form. *)
Definition format (n k s : Z) : string :=
  if (n <=? 21)%Z then decimal (s * 10 ^ (n - k))
  else
    match decimal s with
    | String c r =>
        String c (if (k =? 1)%Z then "" else "." ++ r)
        ++ "e+" ++ decimal (n - 1)
    | EmptyString => ""
    end.

Definition positive_to_string (x : Z) : string :=
  let d := Z.of_nat (String.length (decimal x)) in
  match shortest x d (map Z.of_nat (seq 1 (Z.to_nat d))) with
  | Some (k, (n, s)) => format n k s
  | None => decimal x
  end.

(** [Number::toString] on the numbers above. *)
Definition number_to_string (x : number) : string :=
  match x with
  | NaN => "NaN"
  | infinite neg => if neg then "-Infinity" else "Infinity"
  | finite neg m =>
      if (m =? 0)%Z then "0"
      else (if neg then "-" else "") ++ positive_to_string m
  end.

(** ** JSON *)
Inductive json :=
| j_number (x : number)
| j_string (s : string)
| j_object (members : list (string * json)).

Definition double_quote : ascii := ascii_of_nat 34.
Definition backslash : ascii := ascii_of_nat 92.

Definition hex_digit (n : nat) : ascii :=
  if (n <? 10)%nat then ascii_of_nat (48 + n) else ascii_of_nat (87 + n).

(** One code unit inside a JSON string. *)
Definition json_escape (c : ascii) : string :=
  let n := nat_of_ascii c in
  if (n =? 34)%nat then String backslash (String double_quote "")
  else if (n =? 92)%nat then String backslash (String backslash "")
  else if (n =? 8)%nat then String backslash "b"
  else if (n =? 9)%nat then String backslash "t"
  else if (n =? 10)%nat then String backslash "n"
  else if (n =? 12)%nat then String backslash "f"
  else if (n =? 13)%nat then String backslash "r"
  else if (n <? 32)%nat then
    String backslash
      ("u00" ++ String (hex_digit (n / 16)) (String (hex_digit (n mod 16)) ""))
  else String c "".

Fixpoint json_escape_all (s : string) : string :=
  match s with
  | String c r => json_escape c ++ json_escape_all r
  | EmptyString => ""
  end.

Definition json_quote (s : string) : string :=
  String double_quote (json_escape_all s ++ String double_quote "").

(** [JSON.stringify(j)], no indentation; a number that is not finite is
    written [null]. *)
Fixpoint JSON_stringify (j : json) : string :=
  match j with
  | j_number x =>
      match x with
      | finite _ _ => number_to_string x
      | _ => "null"
      end
  | j_string s => json_quote s
  | j_object ms =>
      "{" ++
      (fix members (l : list (string * json)) : string :=
         match l with
         | [] => ""
         | (key, v) :: r =>
             json_quote key ++ ":" ++ JSON_stringify v ++
             match r with
             | [] => ""
             | _ => "," ++ members r
             end
         end) ms
      ++ "}"
  end.

End Js.
Import Js.

(** ** Data of the collaborators *)

(** The opaque session of an OAuth pairing and the parsed query of a URL:
    objects used as string-keyed mappings. *)
Definition Session := list (string * string).
Definition Query := list (string * string).

(** The request record built by [complete-oauth]. *)
Record Request := mkRequest {
  httpVersion : string;
  headers : list string;
  rawHeaders : list string;
  method : string;
  url : string;
  query : Query;
  session : Session
}.

Record App := mkApp {
  app_uniqueId : string; app_name : string; app_description : string }.

Record Device := mkDevice {
  dev_uniqueId : string; dev_kind : string;
  dev_name : string; dev_description : string }.

Record Permission := mkPermission {
  perm_uniqueId : string; perm_code : string; perm_description : string }.

Record Account := mkAccount { acc_name : string; acc_account : string }.

Record RDL := mkRDL {
  displayTitle : string; callback : jsval; webCallback : jsval }.

(** What the synchronous getters of the engine answer when a line is
    handled: [engine.apps], [engine.devices], [engine.messaging] and
    [engine.permissions]. *)
Record Engine := mkEngine {
  getAllApps : list App;
  getApp : jsval -> option App;
  getAllDevices : list Device;
  getIdentities : list string;
  getAllPermissions : list Permission
}.

(** The queries of [engine.ibase] issued by [_testLog]. *)
Inductive filter_value := fv_string (s : string) | fv_number (n : Z).

Record Filter := mkFilter {
  filter_name : string; filter_op : string; filter_val : filter_value }.

Inductive ibase_call :=
| ibase_query (cols : list string) (filters : list Filter)
| ibase_getCount (filters : list Filter)
| ibase_getMax (col : string) (filters : list Filter)
| ibase_getMin (col : string) (filters : list Filter)
| ibase_getSum (col : string) (filters : list Filter)
| ibase_getAvg (col : string) (filters : list Filter)
| ibase_getArgmax (cols : list string) (col : string) (filters : list Filter)
| ibase_getArgmin (cols : list string) (col : string) (filters : list Filter).

Inductive QueryResult := scalar (n : Z) | sequence (rows : list string).

(** ** Deferred results

    A collaborator call that answers with a promise.  The promise is named
    by a number; the environment settles it later. *)
Definition promise := nat.
Definition error := string.

Inductive call :=
| conversation_handleCommand (text : string)
| conversation_handleParsedCommand (json : string)
| conversation_handleThingTalk (code : string)
| engine_close
| messaging_getAccountForIdentity (identity : jsval)
| messaging_searchAccountByName (name : jsval)
| factory_runOAuth2 (kind : jsval) (req : option Request)
| ibase (c : ibase_call).

(** The value a promise is fulfilled with, by the interface of the
    collaborator that made it. *)
Inductive settled :=
| val_undefined
| val_account (account : string)
| val_accounts (accounts : list Account)
| val_oauth (redirect : string) (session : Session)
| val_result (r : QueryResult).

Inductive outcome :=
| fulfilled (v : settled)
| rejected (e : error).

(** The callback given to [then] on the promise of a call. *)
Inductive reaction :=
| no_reaction          (* the promise is used as it is *)
| on_account           (* (account) => console.log(account) *)
| on_accounts          (* (accounts) => for (account of accounts) console.log(...) *)
| on_oauth_started     (* ([redirect, session]) => { this._oauthSession = session; console.log(redirect) } *)
| on_ibase_result      (* (res) => console.log(res) *)
| on_engine_closed.    (* () => this._engine.platform.exit() *)

(** What follows the reaction: nothing; [.done()]; or, for the promise a
    handler returned to [_onLine], [.then(() => this._rl.prompt()).done()]. *)
Inductive chain :=
| unchained
| chain_done
| chain_prompt_done.

Record subscription := mkSubscription {
  sub_reaction : reaction;
  sub_chain : chain
}.

(** ** Observable actions, in the order they happen

    Output on the terminal, calls on the read line interface, calls to the
    collaborators that change something or answer with a promise ([invoke]
    names the promise), an error that [done] throws out of a promise
    chain, where no handler of this file sees it and the run time ends the
    process, and a rejection that no callback of this file takes: what
    becomes of that one is the business of the promise library of the
    collaborator and of the run time. *)
Inductive effect :=
| console_log (text : string)
| console_log_result (r : QueryResult)
| rl_prompt
| rl_close
| conversation_start
| invoke (p : promise) (c : call)
| apps_removeApp (app : App)
| permissions_removePermission (id : jsval)
| platform_exit
| uncaught (e : error)
| unhandled_rejection (e : error).

(** ** The assistant object *)
Record Assistant := mkAssistant {
  _oauthKind : jsval;
  _oauthSession : Session;
  rl_closed : bool;
  promises : list (promise * subscription);
  next_promise : promise
}.

(** The fields set by the constructor; the read line interface is open and
    no promise exists. *)
Definition new_Assistant : Assistant :=
  {| _oauthKind := js_null;
     _oauthSession := [];
     rl_closed := false;
     promises := [];
     next_promise := 0 |}.

(** ** A monad for methods: state of the object and emitted effects *)
Definition M (A : Type) : Type := Assistant -> A * Assistant * list effect.

Definition ret {A} (x : A) : M A := fun a => (x, a, []).

Definition bind {A B} (m : M A) (k : A -> M B) : M B :=
  fun a =>
    match m a with
    | (x, a1, e1) =>
        match k x a1 with
        | (y, a2, e2) => (y, a2, (e1 ++ e2)%list)
        end
    end.

Notation "x <- m ;; k" := (bind m (fun x => k))
  (at level 61, m at next level, right associativity).
Notation "m ;; k" := (bind m (fun _ => k))
  (at level 61, right associativity).

Definition emit (e : effect) : M unit := fun a => (tt, a, [e]).

Definition gets {A} (f : Assistant -> A) : M A := fun a => (f a, a, []).

Definition modify (f : Assistant -> Assistant) : M unit :=
  fun a => (tt, f a, []).

Fixpoint for_each {X} (l : list X) (f : X -> M unit) : M unit :=
  match l with
  | [] => ret tt
  | x :: r => f x ;; for_each r f
  end.

Definition log (text : string) : M unit := emit (console_log text).

(** The state after a method and what it emitted. *)
Definition state_of {A} (r : A * Assistant * list effect) : Assistant :=
  snd (fst r).
Definition effects_of {A} (r : A * Assistant * list effect) : list effect :=
  snd r.
Definition value_of {A} (r : A * Assistant * list effect) : A :=
  fst (fst r).

(** Calling a collaborator that answers with a promise, and giving the
    promise a [then] callback. *)
Definition defer (c : call) (r : reaction) (ch : chain) : M promise :=
  fun a =>
    let p := next_promise a in
    (p,
     {| _oauthKind := _oauthKind a;
        _oauthSession := _oauthSession a;
        rl_closed := rl_closed a;
        promises := (p, mkSubscription r ch) :: promises a;
        next_promise := S p |},
     [invoke p c]).

(** Chaining further on a promise. *)
Fixpoint attach_in (p : promise) (ch : chain)
    (l : list (promise * subscription)) : list (promise * subscription) :=
  match l with
  | [] => []
  | (q, s) :: r =>
      if Nat.eqb q p then (q, mkSubscription (sub_reaction s) ch) :: r
      else (q, s) :: attach_in p ch r
  end.

Definition attach (p : promise) (ch : chain) : M unit :=
  modify (fun a =>
    {| _oauthKind := _oauthKind a;
       _oauthSession := _oauthSession a;
       rl_closed := rl_closed a;
       promises := attach_in p ch (promises a);
       next_promise := next_promise a |}).

Definition set_oauthKind (k : jsval) : M unit :=
  modify (fun a =>
    {| _oauthKind := k;
       _oauthSession := _oauthSession a;
       rl_closed := rl_closed a;
       promises := promises a;
       next_promise := next_promise a |}).

Definition set_oauthSession (s : Session) : M unit :=
  modify (fun a =>
    {| _oauthKind := _oauthKind a;
       _oauthSession := s;
       rl_closed := rl_closed a;
       promises := promises a;
       next_promise := next_promise a |}).

(** [this._rl.close()] *)
Definition rl_close_ : M unit :=
  modify (fun a =>
    {| _oauthKind := _oauthKind a;
       _oauthSession := _oauthSession a;
       rl_closed := true;
       promises := promises a;
       next_promise := next_promise a |}) ;;
  emit rl_close.

(** What a handler hands back to [Q.try]: a value that is no promise
    ([undefined]), a promise, or an exception. *)
Inductive completion :=
| returns (p : option promise)
| throws (e : error).

Definition return_undefined : M completion := ret (returns None).

(** ** [CommandLineDelegate]: one method per output primitive *)
Inductive delegate_call :=
| send (what : string)
| sendPicture (url : string)
| sendRDL (rdl : RDL)
| sendChoice (idx : number) (what title text : string)
| sendLink (title url : string)
| sendButton (title json : string)
| sendAskSpecial (what : jsval).

Definition CommandLineDelegate (c : delegate_call) : M unit :=
  match c with
  | send what => log (">> " ++ what)
  | sendPicture url => log (">> picture: " ++ url)
  | sendRDL rdl =>
      log (">> rdl: " ++ displayTitle rdl ++ " " ++
           to_string (if truthy (callback rdl) then callback rdl
                      else webCallback rdl))
  | sendChoice idx what title text =>
      log (">> choice " ++ number_to_string idx ++ ": " ++ title)
  | sendLink title url => log (">> link: " ++ title ++ " " ++ url)
  | sendButton title json => log (">> button: " ++ title ++ " " ++ json)
  | sendAskSpecial what => log (">> ask special " ++ to_string what)
  end.

(** ** The methods of [Assistant] *)

Definition newline : string := String (ascii_of_nat 10) "".

Definition _quit : M unit :=
  log ("Bye" ++ newline) ;;
  rl_close_ ;;
  _ <- defer engine_close on_engine_closed chain_done ;;
  ret tt.

Definition help_text : list string :=
  [ "Available commands:";
    "\q : quit";
    "\r <json> : send json to Almond";
    "\c <number> : make a choice";
    "\t <code> : send ThingTalk to Almond";
    "\m self : print own messaging identities";
    "\m identity <identity> : lookup messaging identity, save to contacts";
    "\m search <name> : list contacts by name";
    "\a list : list apps";
    "\a stop <uuid> : stop app";
    "\d list : list devices";
    "\d start-oauth <kind> : start oauth";
    "\d complete-oauth <url> : finish oauth";
    "\p list : list permissions";
    "\p revoke <uuid> : revoke permissions";
    "\l: test the log system";
    "\? or \h : show this help";
    "Any other command is interpreted as an English sentence and sent to Almond" ].

Definition _help : M unit := for_each help_text log.

Definition _runPermissionCommand (eng : Engine) (cmd param : jsval)
    : M completion :=
  if is_str cmd "list" then
    for_each (getAllPermissions eng) (fun permission =>
      log ("- " ++ perm_uniqueId permission ++ ": " ++ perm_code permission
           ++ " : " ++ perm_description permission)) ;;
    return_undefined
  else if is_str cmd "revoke" then
    emit (permissions_removePermission param) ;;
    return_undefined
  else return_undefined.

Definition _runMessagingCommand (eng : Engine) (cmd param : jsval)
    : M completion :=
  if is_str cmd "self" then
    for_each (getIdentities eng) log ;;
    return_undefined
  else if is_str cmd "identity" then
    p <- defer (messaging_getAccountForIdentity param) on_account unchained ;;
    ret (returns (Some p))
  else if is_str cmd "search" then
    p <- defer (messaging_searchAccountByName param) on_accounts unchained ;;
    ret (returns (Some p))
  else return_undefined.

Definition _runAppCommand (eng : Engine) (cmd param : jsval) : M completion :=
  if is_str cmd "list" then
    for_each (getAllApps eng) (fun app =>
      log ("- " ++ app_uniqueId app ++ " " ++ app_name app ++ ": "
           ++ app_description app)) ;;
    return_undefined
  else if is_str cmd "stop" then
    match getApp eng param with
    | None => log ("No app with ID " ++ to_string param) ;; return_undefined
    | Some app => emit (apps_removeApp app) ;; return_undefined
    end
  else return_undefined.

Definition _testLog : M completion :=
  _ <- defer (ibase (ibase_query ["wind_speed"; "location"]
                [mkFilter "weather" "=" (fv_string "Partly cloud")]))
         on_ibase_result unchained ;;
  _ <- defer (ibase (ibase_getCount [mkFilter "wind_speed" ">" (fv_number 1)]))
         on_ibase_result unchained ;;
  _ <- defer (ibase (ibase_getMax "wind_speed" [])) on_ibase_result unchained ;;
  _ <- defer (ibase (ibase_getMin "wind_speed" [])) on_ibase_result unchained ;;
  _ <- defer (ibase (ibase_getSum "wind_speed" [])) on_ibase_result unchained ;;
  _ <- defer (ibase (ibase_getAvg "wind_speed" [])) on_ibase_result unchained ;;
  _ <- defer (ibase (ibase_getArgmax ["location"; "weather"] "wind_speed" []))
         on_ibase_result unchained ;;
  _ <- defer (ibase (ibase_getArgmin ["location"; "weather"] "wind_speed" []))
         on_ibase_result unchained ;;
  return_undefined.

(** [this._conversation.start(); ...; this._rl.prompt()] *)
Definition interact : M unit :=
  emit conversation_start ;; emit rl_prompt.

(** The object [{ answer: { type: "Choice", value: v } }]. *)
Definition choice_answer (v : number) : json :=
  j_object [("answer", j_object [("type", j_string "Choice");
                                 ("value", j_number v)])].

(** [Url.parse(u, true).query] of Node on a string: the parsed query, or
    the error [Url.parse] throws on a string it does not take. *)
Inductive url_result :=
| url_throws (e : error)
| url_query (q : Query).

Section WithUrl.

Variable Url_parse_query : string -> url_result.

Definition _runDeviceCommand (eng : Engine) (cmd param : jsval)
    : M completion :=
  if is_str cmd "list" then
    for_each (getAllDevices eng) (fun dev =>
      log ("- " ++ dev_uniqueId dev ++ " (" ++ dev_kind dev ++ ") "
           ++ dev_name dev ++ ": " ++ dev_description dev)) ;;
    return_undefined
  else if is_str cmd "start-oauth" || is_str cmd "start-oauth2" then
    set_oauthKind param ;;
    p <- defer (factory_runOAuth2 param None) on_oauth_started unchained ;;
    ret (returns (Some p))
  else if is_str cmd "complete-oauth" || is_str cmd "complete-oauth2" then
    match param with
    | js_string u =>
        match Url_parse_query u with
        | url_query q =>
            stored <- gets _oauthSession ;;
            kind <- gets _oauthKind ;;
            p <- defer (factory_runOAuth2 kind (Some
                   {| httpVersion := "1.0";
                      headers := [];
                      rawHeaders := [];
                      method := "GET";
                      url := u;
                      query := q;
                      session := stored |})) no_reaction unchained ;;
            ret (returns (Some p))
        | url_throws e => ret (throws e)
        end
    | _ => ret (throws "TypeError")   (* Url.parse of what is no string *)
    end
  else return_undefined.

(** The function given to [Q.try] in [_onLine]. *)
Definition dispatch (eng : Engine) (line : string) : M completion :=
  if is_str (char_at line 0) "\" then
    if is_str (char_at line 1) "q" then
      _quit ;; return_undefined
    else if is_str (char_at line 1) "?" || String.eqb line "h" then
      _help ;; return_undefined
    else if is_str (char_at line 1) "r" then
      p <- defer (conversation_handleParsedCommand (substr 3 line))
             no_reaction unchained ;;
      ret (returns (Some p))
    else if is_str (char_at line 1) "t" then
      p <- defer (conversation_handleThingTalk (substr 3 line))
             no_reaction unchained ;;
      ret (returns (Some p))
    else if is_str (char_at line 1) "c" then
      p <- defer (conversation_handleParsedCommand
                    (JSON_stringify (choice_answer (parseInt (substr 3 line)))))
             no_reaction unchained ;;
      ret (returns (Some p))
    else if is_str (char_at line 1) "a" then
      let args := split_space (substr 3 line) in
      _runAppCommand eng (arg 0 args) (arg 1 args)
    else if is_str (char_at line 1) "d" then
      let args := split_space (substr 3 line) in
      _runDeviceCommand eng (arg 0 args) (arg 1 args)
    else if is_str (char_at line 1) "m" then
      let args := split_space (substr 3 line) in
      _runMessagingCommand eng (arg 0 args) (arg 1 args)
    else if is_str (char_at line 1) "p" then
      let args := split_space (substr 3 line) in
      _runPermissionCommand eng (arg 0 args) (arg 1 args)
    else if is_str (char_at line 1) "l" then
      _testLog
    else
      log ("Unknown command " ++ to_string (char_at line 1)) ;;
      return_undefined
  else if nonempty (trim line) then
    p <- defer (conversation_handleCommand line) no_reaction unchained ;;
    ret (returns (Some p))
  else return_undefined.

(** [Q.try(...).then(() => this._rl.prompt()).done()]: a value that is no
    promise is followed by the prompt; a promise gets the prompt chained on
    it; an exception has no handler and [done] throws it again. *)
Definition _onLine (eng : Engine) (line : string) : M unit :=
  c <- dispatch eng line ;;
  match c with
  | returns None => emit rl_prompt
  | returns (Some p) => attach p chain_prompt_done
  | throws e => emit (uncaught e)
  end.

End WithUrl.

(** ** Settling a promise *)

(** The [then] callback applied to the value of the promise; [None] when
    the value is not one the collaborator's interface gives to that call. *)
Definition react (r : reaction) (v : settled) : option (M unit) :=
  match r, v with
  | no_reaction, _ => Some (ret tt)
  | on_engine_closed, _ => Some (emit platform_exit)
  | on_account, val_account account => Some (log account)
  | on_accounts, val_accounts accounts =>
      Some (for_each accounts (fun account =>
              log (acc_name account ++ ": " ++ acc_account account)))
  | on_oauth_started, val_oauth redirect session =>
      Some (set_oauthSession session ;; log redirect)
  | on_ibase_result, val_result res => Some (emit (console_log_result res))
  | _, _ => None
  end.

(** What is chained after the reaction, when it went well. *)
Definition continue_with (ch : chain) : M unit :=
  match ch with
  | chain_prompt_done => emit rl_prompt
  | _ => ret tt
  end.

(** A rejection passes the [then] callbacks; [done] throws it again, and
    without [done] no code of this file takes it: it stays unhandled. *)
Definition reject_with (ch : chain) (e : error) : M unit :=
  match ch with
  | unchained => emit (unhandled_rejection e)
  | _ => emit (uncaught e)
  end.

(** The subscription of [p], taken out of the table. *)
Fixpoint take (p : promise) (l : list (promise * subscription))
    : option (subscription * list (promise * subscription)) :=
  match l with
  | [] => None
  | (q, s) :: r =>
      if Nat.eqb q p then Some (s, r)
      else match take p r with
           | Some (s', r') => Some (s', (q, s) :: r')
           | None => None
           end
  end.

Definition forget (rest : list (promise * subscription)) (a : Assistant)
    : Assistant :=
  {| _oauthKind := _oauthKind a;
     _oauthSession := _oauthSession a;
     rl_closed := rl_closed a;
     promises := rest;
     next_promise := next_promise a |}.

Definition settle (p : promise) (o : outcome) (a : Assistant)
    : option (Assistant * list effect) :=
  match take p (promises a) with
  | None => None
  | Some (s, rest) =>
      match o with
      | rejected e =>
          let r := reject_with (sub_chain s) e (forget rest a) in
          Some (state_of r, effects_of r)
      | fulfilled v =>
          match react (sub_reaction s) v with
          | None => None
          | Some m =>
              let r := (m ;; continue_with (sub_chain s)) (forget rest a) in
              Some (state_of r, effects_of r)
          end
      end
  end.

(** An error thrown out of a promise chain. *)
Definition is_uncaught (e : effect) : bool :=
  match e with
  | uncaught _ => true
  | _ => false
  end.

(** ** The event loop

    What can happen to the assistant after [interact]: the read line
    interface emits a line ([_onLine] never pauses it, so a line can come
    while promises are pending; and since the handler runs only after the
    lines of one chunk of input have all been emitted, a line can still
    come after a [\q] before it has closed the interface), or an interrupt
    (while it is open), the assistant core calls the delegate, a promise is
    settled.  [None]: the event cannot happen in that state.

    One step for a line is the whole chain [Q.try(...).then(...).done()]
    of that line, from its handler to the prompt or to the error thrown
    again, as it runs when the line comes in a chunk of its own (a line
    typed at the terminal).  When several lines come in one chunk, [Q]
    runs their handlers first, in the order of the lines, and what is
    chained on them afterwards: the effects of these lines are those of
    their steps in that other order, and each handler finds the state its
    step finds, since a prompt changes nothing a handler reads. *)
Inductive event :=
| ev_line (eng : Engine) (line : string)
| ev_sigint
| ev_render (c : delegate_call)
| ev_settle (p : promise) (o : outcome).

Section Loop.

Variable Url_parse_query : string -> url_result.

Definition step (ev : event) (a : Assistant)
    : option (Assistant * list effect) :=
  match ev with
  | ev_line eng line =>
      let r := _onLine Url_parse_query eng line a in
      Some (state_of r, effects_of r)
  | ev_sigint =>
      if rl_closed a then None
      else let r := _quit a in Some (state_of r, effects_of r)
  | ev_render c =>
      let r := CommandLineDelegate c a in Some (state_of r, effects_of r)
  | ev_settle p o => settle p o a
  end.

(** Events one after the other.  An error thrown out of a promise chain
    is an uncaught exception of the process, which ends it (this file
    installs no handler for it): no event follows it, and [run] has no
    result for a list that goes on after one.  Left out are the lines
    that came in one chunk with the failing line, after it: their handlers
    still run before the process ends. *)
Fixpoint run (evs : list event) (a : Assistant)
    : option (Assistant * list effect) :=
  match evs with
  | [] => Some (a, [])
  | ev :: rest =>
      match step ev a with
      | None => None
      | Some (a1, e1) =>
          if existsb is_uncaught e1 then
            match rest with
            | [] => Some (a1, e1)
            | _ :: _ => None
            end
          else
            match run rest a1 with
            | None => None
            | Some (a2, e2) => Some (a2, (e1 ++ e2)%list)
            end
      end
  end.

End Loop.

(** The promises that hold back a prompt: returned by the handler of a line
    and not settled yet. *)
Definition awaited (a : Assistant) : list promise :=
  map fst
    (filter (fun e => match sub_chain (snd e) with
                      | chain_prompt_done => true
                      | _ => false
                      end) (promises a)).

(** ** The dispatcher as a table

    [select] names the branch of [_onLine] a line takes and [exec] runs it;
    [dispatch_select] below shows that [dispatch] is their composition. *)
Inductive branch :=
| br_quit
| br_help
| br_raw (text : string)
| br_thingtalk (code : string)
| br_choice (text : string)
| br_app (args : list string)
| br_device (args : list string)
| br_messaging (args : list string)
| br_permission (args : list string)
| br_testLog
| br_unknown (c : jsval)
| br_natural (line : string)
| br_nothing.

Definition select (line : string) : branch :=
  if is_str (char_at line 0) "\" then
    if is_str (char_at line 1) "q" then br_quit
    else if is_str (char_at line 1) "?" || String.eqb line "h" then br_help
    else if is_str (char_at line 1) "r" then br_raw (substr 3 line)
    else if is_str (char_at line 1) "t" then br_thingtalk (substr 3 line)
    else if is_str (char_at line 1) "c" then br_choice (substr 3 line)
    else if is_str (char_at line 1) "a" then
      br_app (split_space (substr 3 line))
    else if is_str (char_at line 1) "d" then
      br_device (split_space (substr 3 line))
    else if is_str (char_at line 1) "m" then
      br_messaging (split_space (substr 3 line))
    else if is_str (char_at line 1) "p" then
      br_permission (split_space (substr 3 line))
    else if is_str (char_at line 1) "l" then br_testLog
    else br_unknown (char_at line 1)
  else if nonempty (trim line) then br_natural line
  else br_nothing.

Definition exec (Url_parse_query : string -> url_result) (eng : Engine)
    (b : branch) : M completion :=
  match b with
  | br_quit => _quit ;; return_undefined
  | br_help => _help ;; return_undefined
  | br_raw text =>
      p <- defer (conversation_handleParsedCommand text)
             no_reaction unchained ;;
      ret (returns (Some p))
  | br_thingtalk code =>
      p <- defer (conversation_handleThingTalk code) no_reaction unchained ;;
      ret (returns (Some p))
  | br_choice text =>
      p <- defer (conversation_handleParsedCommand
                    (JSON_stringify (choice_answer (parseInt text))))
             no_reaction unchained ;;
      ret (returns (Some p))
  | br_app args => _runAppCommand eng (arg 0 args) (arg 1 args)
  | br_device args =>
      _runDeviceCommand Url_parse_query eng (arg 0 args) (arg 1 args)
  | br_messaging args => _runMessagingCommand eng (arg 0 args) (arg 1 args)
  | br_permission args => _runPermissionCommand eng (arg 0 args) (arg 1 args)
  | br_testLog => _testLog
  | br_unknown c => log ("Unknown command " ++ to_string c) ;; return_undefined
  | br_natural line =>
      p <- defer (conversation_handleCommand line) no_reaction unchained ;;
      ret (returns (Some p))
  | br_nothing => return_undefined
  end.

(** The branches that are a verb of the command table. *)
Definition is_verb_handler (b : branch) : bool :=
  match b with
  | br_unknown _ | br_natural _ | br_nothing => false
  | _ => true
  end.

Definition is_help (b : branch) : bool :=
  match b with
  | br_help => true
  | _ => false
  end.

(** The second characters that select a verb. *)
Definition verb_chars : list string :=
  ["q"; "?"; "r"; "t"; "c"; "a"; "d"; "m"; "p"; "l"].

Definition is_verb_char (c : jsval) : bool := existsb (is_str c) verb_chars.

(** A first phase of the OAuth pairing is started by this line. *)
Definition starts_oauth (line : string) : bool :=
  match select line with
  | br_device args =>
      is_str (arg 0 args) "start-oauth" || is_str (arg 0 args) "start-oauth2"
  | _ => false
  end.

(** ** Words of the specification *)

(** An integer in decimal. *)
Definition Z_decimal (N : Z) : string :=
  if (N <? 0)%Z then "-" ++ decimal (Z.abs N) else decimal N.

(** The line of the command [choice N]. *)
Definition choice_line (N : Z) : string := "\c " ++ Z_decimal N.

(** The JSON text of [{answer: {type: "Choice", value: N}}] for an
    integer [N], written after the specification. *)
Definition spec_choice_json (N : Z) : string :=
  "{" ++ json_quote "answer" ++ ":{" ++ json_quote "type" ++ ":"
  ++ json_quote "Choice" ++ "," ++ json_quote "value" ++ ":"
  ++ Z_decimal N ++ "}}".

(** No space in a word. *)
Fixpoint no_space (s : string) : bool :=
  match s with
  | String c r => negb (Ascii.eqb c space) && no_space r
  | EmptyString => true
  end.

(** Some text was written to the terminal. *)
Definition is_console_log (e : effect) : bool :=
  match e with
  | console_log _ | console_log_result _ => true
  | _ => false
  end.

Definition is_prompt (e : effect) : bool :=
  match e with
  | rl_prompt => true
  | _ => false
  end.

(** Sample collaborators for closed examples. *)
Definition no_query : string -> url_result := fun _ => url_query [].

Definition sample_app : App := mkApp "a1" "App" "an app".

Definition sample_engine : Engine :=
  {| getAllApps := [sample_app];
     getApp := fun id => if is_str id "a1" then Some sample_app else None;
     getAllDevices := [];
     getIdentities := ["id1"];
     getAllPermissions := [] |}.

(** ** Observations used in the statements *)

(** Decimal digits. *)
Definition is_digit (c : ascii) : bool :=
  match digit_value 10 c with
  | Some _ => true
  | None => false
  end.

Fixpoint all_digits (s : string) : bool :=
  match s with
  | String c r => is_digit c && all_digits r
  | EmptyString => true
  end.

Definition acc_value (acc : option Z) : Z :=
  match acc with
  | Some v => v
  | None => 0
  end.

(** The stored pairing and the first phases that wait for a result. *)
Definition oauth_of (a : Assistant) : jsval * Session :=
  (_oauthKind a, _oauthSession a).

Definition is_phase1 (r : reaction) : bool :=
  match r with
  | on_oauth_started => true
  | _ => false
  end.

(** A first phase of the pairing is waiting for its result. *)
Definition phase1_pending (a : Assistant) : bool :=
  existsb (fun e => is_phase1 (sub_reaction (snd e))) (promises a).

(** [m] leaves the observation [f] of the state as it was. *)
Definition keeps {A X} (f : Assistant -> X) (m : M A) : Prop :=
  forall a, f (state_of (m a)) = f a.

Definition settles_phase1 (a : Assistant) (p : promise) : bool :=
  match take p (promises a) with
  | Some (s, _) => is_phase1 (sub_reaction s)
  | None => false
  end.

(** An event that is neither a line that starts a pairing nor the
    fulfilment of a first phase; the rejection of a first phase is quiet. *)
Definition quiet (a : Assistant) (ev : event) : bool :=
  match ev with
  | ev_line _ line => negb (starts_oauth line)
  | ev_settle p (fulfilled _) => negb (settles_phase1 a p)
  | _ => true
  end.

(** An event that is not a line starting a pairing. *)
Definition line_free (ev : event) : bool :=
  match ev with
  | ev_line _ line => negb (starts_oauth line)
  | _ => true
  end.


(** The assistant with one more promise, subscribed as given. *)
Definition subscribed (r : reaction) (ch : chain) (a : Assistant)
    : Assistant :=
  {| _oauthKind := _oauthKind a;
     _oauthSession := _oauthSession a;
     rl_closed := rl_closed a;
     promises := (next_promise a, mkSubscription r ch) :: promises a;
     next_promise := S (next_promise a) |}.

(** Case analysis on the tests of a handler. *)
Ltac split_tests :=
  repeat match goal with
         | |- context [if ?c then _ else _] => destruct c
         | |- context [match getApp ?e ?p with _ => _ end] =>
             destruct (getApp e p)
         | |- context [match ?v with js_undefined => _ | _ => _ end] =>
             destruct v
         | |- context [match ?r with
                       | url_throws _ => _
                       | url_query _ => _
                       end] => destruct r
         end.

(** ** Counting what a run shows *)

(** Every effect of [m] satisfies [P]. *)
Definition emits {A} (P : effect -> bool) (m : M A) : Prop :=
  forall a, forallb P (effects_of (m a)) = true.

Definition no_prompt (e : effect) : bool := negb (is_prompt e).

Definition is_line (ev : event) : bool :=
  match ev with
  | ev_line _ _ => true
  | _ => false
  end.

(** The prompts drawn and the errors thrown out of a promise chain in a
    list of effects; the lines read in a list of events. *)
Definition prompts (es : list effect) : nat := length (filter is_prompt es).
Definition uncaughts (es : list effect) : nat :=
  length (filter is_uncaught es).
Definition lines_read (evs : list event) : nat := length (filter is_line evs).

(** The chain after which the prompt is drawn. *)
Definition holds_prompt (s : subscription) : bool :=
  match sub_chain s with
  | chain_prompt_done => true
  | _ => false
  end.











(** The lines the listing commands print. *)
Definition app_line (app : App) : string :=
  "- " ++ app_uniqueId app ++ " " ++ app_name app ++ ": "
  ++ app_description app.

Definition device_line (dev : Device) : string :=
  "- " ++ dev_uniqueId dev ++ " (" ++ dev_kind dev ++ ") " ++ dev_name dev
  ++ ": " ++ dev_description dev.

Definition permission_line (permission : Permission) : string :=
  "- " ++ perm_uniqueId permission ++ ": " ++ perm_code permission ++ " : "
  ++ perm_description permission.

(** The sub-commands each handler knows. *)
Definition app_commands : list string := ["list"; "stop"].
Definition device_commands : list string :=
  ["list"; "start-oauth"; "start-oauth2"; "complete-oauth"; "complete-oauth2"].
Definition messaging_commands : list string := ["self"; "identity"; "search"].
Definition permission_commands : list string := ["list"; "revoke"].

Definition known (commands : list string) (cmd : jsval) : bool :=
  existsb (is_str cmd) commands.

(** A value that is no string. *)
Definition not_a_string (v : jsval) : bool :=
  match v with
  | js_string _ => false
  | _ => true
  end.


(** The assistant after one promise was made and settled: only the number
    of the next promise has moved. *)
Definition after_promise (a : Assistant) : Assistant :=
  {| _oauthKind := _oauthKind a;
     _oauthSession := _oauthSession a;
     rl_closed := rl_closed a;
     promises := promises a;
     next_promise := S (next_promise a) |}.

(** The request [complete-oauth] builds for a url, its parsed query and a
    session. *)
Definition oauth_request (u : string) (q : Query) (s : Session) : Request :=
  {| httpVersion := "1.0";
     headers := [];
     rawHeaders := [];
     method := "GET";
     url := u;
     query := q;
     session := s |}.

(** The text a delegate call shows after [>> ]. *)
Definition shown (c : delegate_call) : string :=
  match c with
  | send what => what
  | sendPicture url => "picture: " ++ url
  | sendRDL rdl =>
      "rdl: " ++ displayTitle rdl ++ " "
      ++ to_string (if truthy (callback rdl) then callback rdl
                    else webCallback rdl)
  | sendChoice idx _ title _ =>
      "choice " ++ number_to_string idx ++ ": " ++ title
  | sendLink title url => "link: " ++ title ++ " " ++ url
  | sendButton title json => "button: " ++ title ++ " " ++ json
  | sendAskSpecial what => "ask special " ++ to_string what
  end.



(** Words put together again with one space between them. *)
Fixpoint join_space (l : list string) : string :=
  match l with
  | [] => ""
  | w :: r =>
      match r with
      | [] => w
      | _ => w ++ " " ++ join_space r
      end
  end.

Fixpoint count_spaces (s : string) : nat :=
  match s with
  | String c r => (if Ascii.eqb c space then 1 else 0) + count_spaces r
  | EmptyString => 0
  end.

(** The arguments a line gives to the handler of its verb, if it has one
    that takes arguments. *)
Definition arguments (line : string) : option (list string) :=
  match select line with
  | br_app args | br_device args | br_messaging args | br_permission args =>
      Some args
  | _ => None
  end.

(** A text that does not begin, after white space, with a sign or a
    decimal digit. *)
Definition no_number (s : string) : bool :=
  match trim_start s with
  | String c _ =>
      negb (is_digit c) && negb (Ascii.eqb c "-") && negb (Ascii.eqb c "+")
  | EmptyString => true
  end.

(** The JSON text of the answer whose value is [null]. *)
Definition spec_choice_null : string :=
  "{" ++ json_quote "answer" ++ ":{" ++ json_quote "type" ++ ":"
  ++ json_quote "Choice" ++ "," ++ json_quote "value" ++ ":null}}".

(** A character that ends a decimal number: no digit, and no [x] that
    would make a hexadecimal prefix of a leading zero. *)
Definition ends_number (c : ascii) : bool :=
  negb (is_digit c) && negb (Ascii.eqb c "x") && negb (Ascii.eqb c "X").


(** * Properties *)

(** ** The dispatcher is its table *)
Lemma dispatch_select (uq : string -> url_result) (eng : Engine) (line : string) :
  dispatch uq eng line = exec uq eng (select line).
Proof.
  unfold dispatch, select.
  repeat match goal with
         | |- context [if ?c then _ else _] => destruct c
         end; reflexivity.
Qed.

(** ** Strings *)

Lemma split_space_word (s : string) :
  no_space s = true -> split_space s = [s].
Proof.
  induction s as [|c r IH]; simpl; intros H; [reflexivity|].
  apply andb_true_iff in H. destruct H as [Hc Hr].
  destruct (Ascii.eqb c space); [discriminate|].
  rewrite (IH Hr). reflexivity.
Qed.

Lemma split_space_first (s : string) :
  exists h t, split_space s = h :: t /\ no_space h = true.
Proof.
  induction s as [|c r IH]; simpl.
  - exists "", []. split; reflexivity.
  - destruct (Ascii.eqb c space) eqn:E.
    + exists "", (split_space r). split; reflexivity.
    + destruct IH as (h & t & -> & Hh).
      exists (String c h), t. split; [reflexivity|].
      simpl. rewrite E, Hh. reflexivity.
Qed.

Lemma escape_head (line : string) :
  is_str (char_at line 0) "\" = true -> exists r, line = String "\" r.
Proof.
  destruct line as [|c r]; simpl; [discriminate|].
  intros H. exists r. f_equal.
  apply andb_true_iff in H. destruct H as [H _].
  apply Ascii.eqb_eq in H. exact H.
Qed.

Lemma blank_is_no_escape (line : string) :
  trim line = "" -> is_str (char_at line 0) "\" = false.
Proof.
  intros H. destruct (is_str (char_at line 0) "\") eqn:E; [|reflexivity].
  destruct (escape_head line E) as [r ->].
  discriminate H.
Qed.

Lemma nonempty_false (s : string) : s = "" -> nonempty s = false.
Proof. intros ->. reflexivity. Qed.

Lemma nonempty_true (s : string) : s <> "" -> nonempty s = true.
Proof.
  intros H. destruct s; [contradiction H; reflexivity | reflexivity].
Qed.

(** ** Routing of a line *)

Lemma select_blank (line : string) : trim line = "" -> select line = br_nothing.
Proof.
  intros H. unfold select.
  rewrite (blank_is_no_escape line H), (nonempty_false _ H). reflexivity.
Qed.

Lemma select_natural (line : string) :
  trim line <> "" -> is_str (char_at line 0) "\" = false ->
  select line = br_natural line.
Proof.
  intros H E. unfold select. rewrite E, (nonempty_true _ H). reflexivity.
Qed.

Lemma select_escape (line : string) :
  is_str (char_at line 0) "\" = true ->
  if is_verb_char (char_at line 1) then is_verb_handler (select line) = true
  else select line = br_unknown (char_at line 1).
Proof.
  intros E. destruct (escape_head line E) as [r ->].
  destruct r as [|c r]; [reflexivity|].
  destruct c as [[] [] [] [] [] [] [] []]; reflexivity.
Qed.

Lemma onLine_select (uq : string -> url_result) (eng : Engine) (line : string) :
  _onLine uq eng line =
  (c <- exec uq eng (select line) ;;
   match c with
   | returns None => emit rl_prompt
   | returns (Some p) => attach p chain_prompt_done
   | throws e => emit (uncaught e)
   end).
Proof. unfold _onLine. rewrite dispatch_select. reflexivity. Qed.

(** C7 (amended): for every line, (1) a line that is empty after trimming
    runs no handler and calls nothing: the state is unchanged and only the
    prompt is drawn; (2) a line that is not blank and does not begin with
    the escape marker is given as it is, once, to [handleCommand], whose
    promise is awaited, and nothing else happens; (3) a line that begins with the escape marker
    runs the one branch [select] names, which is a verb handler when the
    second character is one of [q ? r t c a d m p l]; with any other second
    character, or none, no handler runs: [Unknown command] is printed and
    the prompt is drawn. *)
Theorem line_routing (uq : string -> url_result) (eng : Engine) (line : string)
    (a : Assistant) :
  (trim line = "" -> _onLine uq eng line a = (tt, a, [rl_prompt]))
  /\ (trim line <> "" -> is_str (char_at line 0) "\" = false ->
      _onLine uq eng line a
      = (tt, subscribed no_reaction chain_prompt_done a,
         [invoke (next_promise a) (conversation_handleCommand line)]))
  /\ (is_str (char_at line 0) "\" = true ->
      dispatch uq eng line = exec uq eng (select line)
      /\ if is_verb_char (char_at line 1)
         then is_verb_handler (select line) = true
         else _onLine uq eng line a
              = (tt, a, [console_log ("Unknown command "
                                      ++ to_string (char_at line 1));
                         rl_prompt])).
Proof.
  split; [|split].
  - intros H. rewrite onLine_select, (select_blank line H). reflexivity.
  - intros H E. rewrite onLine_select, (select_natural line H E).
    unfold bind, exec, subscribed. cbn. rewrite Nat.eqb_refl. reflexivity.
  - intros E. split; [apply dispatch_select|].
    pose proof (select_escape line E) as S.
    destruct (is_verb_char (char_at line 1)); [exact S|].
    rewrite onLine_select, S. reflexivity.
Qed.

Lemma line_routing_witness :
  _onLine no_query sample_engine "   " new_Assistant
  = (tt, new_Assistant, [rl_prompt])
  /\ _onLine no_query sample_engine " \q" new_Assistant
     = (tt, subscribed no_reaction chain_prompt_done new_Assistant,
        [invoke 0 (conversation_handleCommand " \q")])
  /\ is_verb_handler (select "\a list") = true
  /\ _onLine no_query sample_engine "\z" new_Assistant
     = (tt, new_Assistant, [console_log "Unknown command z"; rl_prompt]).
Proof.
  split; [|split; [|split]].
  - apply (proj1 (line_routing no_query sample_engine "   " new_Assistant)).
    reflexivity.
  - apply (proj1 (proj2 (line_routing no_query sample_engine " \q"
                           new_Assistant))).
    + discriminate.
    + reflexivity.
  - exact (proj2 (proj2 (proj2 (line_routing no_query sample_engine "\a list"
                                  new_Assistant)) eq_refl)).
  - exact (proj2 (proj2 (proj2 (line_routing no_query sample_engine "\z"
                                  new_Assistant)) eq_refl)).
Defined.

(** C7, as stated, fails: the line [\z] begins with the escape marker and
    selects no verb handler. *)
Lemma escape_line_without_handler :
  is_str (char_at "\z" 0) "\" = true
  /\ select "\z" = br_unknown (js_string "z")
  /\ ~ (is_str (char_at "\z" 0) "\" = true
        -> is_verb_handler (select "\z") = true).
Proof.
  split; [reflexivity|]. split; [reflexivity|].
  intros H. specialize (H eq_refl). discriminate H.
Qed.

(** C10: a line that begins [\h] prints [Unknown command h] and the prompt,
    not the help, although the help text names [\h]; the test
    [line === 'h'] is false on every line that begins with the escape
    marker, so the help branch is taken exactly when the second character
    is [?]. *)
Theorem help_only_by_question_mark (uq : string -> url_result) (eng : Engine)
    (line rest : string) (a : Assistant) :
  _onLine uq eng ("\h" ++ rest) a
  = (tt, a, [console_log "Unknown command h"; rl_prompt])
  /\ In "\? or \h : show this help" help_text
  /\ is_str (char_at line 0) "\" && String.eqb line "h" = false
  /\ is_help (select line)
     = is_str (char_at line 0) "\" && is_str (char_at line 1) "?"
  /\ _onLine uq eng ("\?" ++ rest) a
     = (tt, a, (map console_log help_text ++ [rl_prompt])%list).
Proof.
  split; [reflexivity|]. split; [simpl; tauto|]. split; [|split].
  - destruct line as [|c r]; [reflexivity|].
    simpl. destruct (Ascii.eqb c "\") eqn:E; [|reflexivity].
    apply Ascii.eqb_eq in E. subst c. reflexivity.
  - destruct (is_str (char_at line 0) "\") eqn:E.
    + destruct (escape_head line E) as [r ->].
      destruct r as [|c r]; [reflexivity|].
      destruct c as [[] [] [] [] [] [] [] []]; reflexivity.
    + unfold select. rewrite E. destruct (nonempty (trim line)); reflexivity.
  - reflexivity.
Qed.

(** C9: [app stop <id>].  When no app has the id, [No app with ID <id>] is
    printed and [removeApp] is not called: nothing but the message and the
    prompt happens and the state is unchanged.  When an app has it,
    [removeApp] is called on that app.  This holds for the handler on every
    argument, also a missing one, and for the line [\a stop <id>] when the
    id is one word. *)
Theorem app_stop_by_id (uq : string -> url_result) (eng : Engine) (param : jsval)
    (id : string) (a : Assistant) :
  _runAppCommand eng (js_string "stop") param a
  = match getApp eng param with
    | None => (returns None, a,
               [console_log ("No app with ID " ++ to_string param)])
    | Some app => (returns None, a, [apps_removeApp app])
    end
  /\ (no_space id = true ->
      _onLine uq eng ("\a stop " ++ id) a
      = match getApp eng (js_string id) with
        | None => (tt, a, [console_log ("No app with ID " ++ id); rl_prompt])
        | Some app => (tt, a, [apps_removeApp app; rl_prompt])
        end).
Proof.
  split.
  - unfold _runAppCommand. simpl. destruct (getApp eng param); reflexivity.
  - intros H. rewrite onLine_select.
    change (select ("\a stop " ++ id)) with (br_app (split_space ("stop " ++ id))).
    change (split_space ("stop " ++ id)) with ("stop" :: split_space id).
    rewrite (split_space_word id H).
    unfold exec, _runAppCommand, arg. simpl.
    destruct (getApp eng (js_string id)); reflexivity.
Qed.

Lemma app_stop_by_id_witness :
  _onLine no_query sample_engine "\a stop nope" new_Assistant
  = (tt, new_Assistant, [console_log "No app with ID nope"; rl_prompt])
  /\ _onLine no_query sample_engine "\a stop a1" new_Assistant
     = (tt, new_Assistant, [apps_removeApp sample_app; rl_prompt]).
Proof.
  split.
  - apply (proj2 (app_stop_by_id no_query sample_engine js_undefined "nope"
                    new_Assistant)).
    reflexivity.
  - apply (proj2 (app_stop_by_id no_query sample_engine js_undefined "a1"
                    new_Assistant)).
    reflexivity.
Defined.

(** ** Decimal digits and [parseInt] *)

Lemma digit_char_value (d : Z) :
  (0 <= d < 10)%Z -> digit_value 10 (digit_char d) = Some d.
Proof.
  intros H.
  assert (d = 0 \/ d = 1 \/ d = 2 \/ d = 3 \/ d = 4 \/ d = 5 \/ d = 6
          \/ d = 7 \/ d = 8 \/ d = 9)%Z as C by lia.
  repeat (destruct C as [-> | C]; [reflexivity|]). subst d. reflexivity.
Qed.

Lemma digit_char_is_digit (d : Z) :
  (0 <= d < 10)%Z -> is_digit (digit_char d) = true.
Proof. intros H. unfold is_digit. rewrite (digit_char_value d H). reflexivity. Qed.

Lemma parse_digit_step (d : Z) (suf : string) (acc : option Z) :
  (0 <= d < 10)%Z ->
  parse_digits 10 (String (digit_char d) suf) acc
  = parse_digits 10 suf (Some (acc_value acc * 10 + d)%Z).
Proof.
  intros H. cbn [parse_digits]. rewrite (digit_char_value d H).
  destruct acc; reflexivity.
Qed.

(** Reading back the digits written for [n], whatever follows them. *)
Lemma parse_digits_fuel (f : nat) :
  forall (n : Z) (suf : string),
    (0 <= n < 2 ^ Z.of_nat f)%Z -> (1 <= f)%nat ->
    exists k, forall acc,
      parse_digits 10 (digits_fuel f n suf) acc
      = parse_digits 10 suf (Some (acc_value acc * k + n)%Z).
Proof.
  induction f as [|f IH]; intros n suf Hn Hf; [lia|].
  cbn [digits_fuel].
  assert (0 <= n mod 10 < 10)%Z as Hd by (apply Z.mod_pos_bound; lia).
  destruct (n <? 10)%Z eqn:E.
  - apply Z.ltb_lt in E. exists 10%Z. intros acc.
    rewrite (parse_digit_step _ _ _ Hd), Z.mod_small by lia. reflexivity.
  - apply Z.ltb_ge in E.
    assert (1 <= n / 10)%Z as Hq by (apply Z.div_le_lower_bound; lia).
    assert (n / 10 < 2 ^ Z.of_nat f)%Z as Hb.
    { apply Z.div_lt_upper_bound; [lia|].
      replace (Z.of_nat (S f)) with (Z.of_nat f + 1)%Z in Hn by lia.
      rewrite Z.pow_add_r, Z.pow_1_r in Hn by lia. lia. }
    assert (1 <= f)%nat as Hf'.
    { destruct f; [simpl in Hb; lia | lia]. }
    destruct (IH (n / 10)%Z (String (digit_char (n mod 10)) suf)) as [k Hk];
      [lia | exact Hf' |].
    exists (k * 10)%Z. intros acc.
    rewrite Hk, (parse_digit_step _ _ _ Hd). cbn [acc_value].
    do 2 f_equal. pose proof (Z.div_mod n 10). lia.
Qed.

Lemma decimal_fuel (n : Z) :
  (0 <= n)%Z -> (0 <= n < 2 ^ Z.of_nat (S (Z.to_nat (Z.log2 n))))%Z.
Proof.
  intros H. split; [exact H|].
  pose proof (Z.log2_nonneg n) as L.
  replace (Z.of_nat (S (Z.to_nat (Z.log2 n)))) with (Z.succ (Z.log2 n)) by lia.
  destruct (Z.eq_dec n 0) as [-> | Hz]; [reflexivity|].
  apply Z.log2_spec. lia.
Qed.

Lemma parse_decimal (n : Z) :
  (0 <= n)%Z -> parse_digits 10 (decimal n) None = Some n.
Proof.
  intros H. unfold decimal.
  destruct (parse_digits_fuel _ n "" (decimal_fuel n H)) as [k Hk]; [lia|].
  rewrite Hk. reflexivity.
Qed.

Lemma digits_fuel_all_digits (f : nat) :
  forall (n : Z) (acc : string),
    (0 <= n)%Z -> all_digits acc = true ->
    all_digits (digits_fuel f n acc) = true.
Proof.
  induction f as [|f IH]; intros n acc Hn Ha; [exact Ha|].
  cbn [digits_fuel].
  assert (all_digits (String (digit_char (n mod 10)) acc) = true) as Hs.
  { cbn [all_digits]. rewrite digit_char_is_digit, Ha; [reflexivity|].
    apply Z.mod_pos_bound. lia. }
  destruct (n <? 10)%Z; [exact Hs|].
  apply IH; [apply Z.div_pos; lia | exact Hs].
Qed.

Lemma digits_fuel_nonempty (f : nat) :
  forall (n : Z) (acc : string), acc <> "" -> digits_fuel f n acc <> "".
Proof.
  induction f as [|f IH]; intros n acc Ha; [exact Ha|].
  cbn [digits_fuel]. destruct (n <? 10)%Z; [discriminate|].
  apply IH. discriminate.
Qed.

Lemma decimal_shape (n : Z) :
  (0 <= n)%Z ->
  exists c r, decimal n = String c r /\ is_digit c = true
              /\ all_digits r = true.
Proof.
  intros H.
  pose proof (digits_fuel_all_digits (S (Z.to_nat (Z.log2 n))) n "" H eq_refl)
    as A.
  assert (decimal n <> "") as N.
  { unfold decimal. cbn [digits_fuel]. destruct (n <? 10)%Z; [discriminate|].
    apply digits_fuel_nonempty. discriminate. }
  fold (decimal n) in A. destruct (decimal n) as [|c r]; [contradiction N; reflexivity|].
  cbn [all_digits] in A. apply andb_true_iff in A.
  exists c, r. tauto.
Qed.

Lemma digits_fuel_length (f : nat) :
  forall (n : Z) (acc : string) (j : nat),
    (0 <= n < 10 ^ Z.of_nat j)%Z -> (1 <= j)%nat ->
    (String.length (digits_fuel f n acc) <= String.length acc + j)%nat.
Proof.
  induction f as [|f IH]; intros n acc j Hn Hj; cbn [digits_fuel]; [lia|].
  destruct (n <? 10)%Z eqn:E; [cbn [String.length]; lia|].
  apply Z.ltb_ge in E.
  destruct j as [|[|j]]; [lia | simpl in Hn; lia |].
  specialize (IH (n / 10)%Z (String (digit_char (n mod 10)) acc) (S j)).
  cbn [String.length] in IH.
  assert (0 <= n / 10 < 10 ^ Z.of_nat (S j))%Z as Hq.
  { split; [apply Z.div_pos; lia|].
    apply Z.div_lt_upper_bound; [lia|].
    replace (Z.of_nat (S (S j))) with (Z.of_nat (S j) + 1)%Z in Hn by lia.
    rewrite Z.pow_add_r, Z.pow_1_r in Hn by lia. lia. }
  specialize (IH Hq). lia.
Qed.

Lemma digit_is_plain (c : ascii) :
  is_digit c = true ->
  is_white c = false
  /\ (forall r, read_sign (String c r) = (false, String c r))
  /\ (forall c' r, is_digit c' = true ->
        read_radix (String c (String c' r)) = (10%Z, String c (String c' r)))
  /\ read_radix (String c "") = (10%Z, String c "").
Proof.
  destruct c as [[] [] [] [] [] [] [] []]; try discriminate; intros _;
    (split; [reflexivity|]); (split; [reflexivity|]);
    (split; [|reflexivity]);
    intros c' r H;
    destruct c' as [[] [] [] [] [] [] [] []]; try discriminate; reflexivity.
Qed.

Lemma read_radix_digits (s : string) :
  all_digits s = true -> read_radix s = (10%Z, s).
Proof.
  destruct s as [|c [|c' r]]; [reflexivity | |]; cbn [all_digits]; intros H.
  - apply andb_true_iff in H. apply (digit_is_plain c). tauto.
  - apply andb_true_iff in H. destruct H as [Hc H].
    apply andb_true_iff in H. destruct H as [Hc' _].
    apply (digit_is_plain c); assumption.
Qed.

(** ** Integers that a double holds exactly *)

Lemma round_double_small (x : Z) :
  (x < 2 ^ 53)%Z -> round_double x = Some x.
Proof.
  intros H. unfold round_double.
  assert (Z.log2 x < 53)%Z as L.
  { destruct (Z_le_gt_dec x 0) as [N | P].
    - rewrite (Z.log2_nonpos x N). lia.
    - apply Z.log2_lt_pow2; lia. }
  destruct (Z.log2 x - 52 <=? 0)%Z eqn:E; [reflexivity|].
  apply Z.leb_gt in E. lia.
Qed.

(** Above the 53 bits the result of rounding is at least [2^53]. *)
Lemma round_double_large (y r : Z) :
  (52 < Z.log2 y)%Z -> round_double y = Some r -> (2 ^ 53 <= r)%Z.
Proof.
  intros L. unfold round_double.
  destruct (Z.log2 y - 52 <=? 0)%Z eqn:E; [apply Z.leb_le in E; lia|].
  set (e := (Z.log2 y - 52)%Z).
  assert (1 <= e)%Z as He by (unfold e; lia).
  set (q := Z.shiftr y e).
  assert (0 < y)%Z as Hy.
  { destruct (Z_le_gt_dec y 0) as [N | P]; [|lia].
    rewrite (Z.log2_nonpos y N) in L. lia. }
  assert (2 ^ 52 <= q)%Z as Hq.
  { unfold q. rewrite Z.shiftr_div_pow2 by lia.
    apply Z.div_le_lower_bound; [apply Z.pow_pos_nonneg; lia|].
    rewrite Z.mul_comm, <- Z.pow_add_r by lia.
    replace (52 + e)%Z with (Z.log2 y) by (unfold e; lia).
    apply Z.log2_spec. exact Hy. }
  match goal with
  | |- context [Z.shiftl ?qq e] =>
      assert (q <= qq)%Z as Hqq
        by (repeat match goal with
                   | |- context [if ?c then _ else _] => destruct c
                   end; lia);
      generalize dependent qq
  end.
  intros q' Hq'.
  destruct (Z.shiftl q' e <? 2 ^ 1024)%Z; [|discriminate].
  intros H. injection H as <-.
  rewrite Z.shiftl_mul_pow2 by lia.
  assert (2 ^ 1 <= 2 ^ e)%Z as P by (apply Z.pow_le_mono_r; lia).
  change (2 ^ 53)%Z with (2 ^ 52 * 2 ^ 1)%Z.
  apply Z.mul_le_mono_nonneg; lia.
Qed.

Lemma round_double_exact (y x : Z) :
  (x < 2 ^ 53)%Z -> round_double y = Some x -> y = x.
Proof.
  intros Hx H.
  destruct (Z_le_gt_dec (Z.log2 y) 52) as [S | B].
  - unfold round_double in H.
    destruct (Z.log2 y - 52 <=? 0)%Z eqn:E; [congruence|].
    apply Z.leb_gt in E. lia.
  - pose proof (round_double_large y x ltac:(lia) H). lia.
Qed.

Lemma to_number_exact (neg : bool) (m : Z) :
  (m < 2 ^ 53)%Z -> to_number neg m = finite neg m.
Proof.
  intros H. unfold to_number.
  destruct (m =? 0)%Z eqn:E.
  - apply Z.eqb_eq in E. subst m. reflexivity.
  - rewrite (round_double_small m H). reflexivity.
Qed.

(** ** [Number::toString] on an integer below [2^53] *)

Lemma closest_In (x k : Z) (l : list (Z * Z)) (c : Z * Z) :
  closest x k l = Some c -> In c l.
Proof.
  revert c. induction l as [|c0 r IH]; intros c; cbn [closest]; [discriminate|].
  destruct (closest x k r) as [c'|].
  - destruct (better x k c0 c'); intros H; injection H as <-.
    + left. reflexivity.
    + right. apply IH. reflexivity.
  - intros H. injection H as <-. left. reflexivity.
Qed.

Lemma candidates_valid (x d k : Z) (c : Z * Z) :
  In c (candidates x d k) ->
  valid x (fst c) k (snd c) = true /\ (fst c <= d + 1)%Z.
Proof.
  unfold candidates. intros H. apply filter_In in H. destruct H as [H V].
  split; [exact V|].
  cbn [In] in H.
  repeat (destruct H as [<- | H]; [cbn [fst]; lia|]). contradiction.
Qed.

Lemma shortest_valid (x d : Z) (ks : list Z) (k n s : Z) :
  shortest x d ks = Some (k, (n, s)) ->
  valid x n k s = true /\ (n <= d + 1)%Z.
Proof.
  induction ks as [|k0 r IH]; cbn [shortest]; [discriminate|].
  destruct (closest x k0 (candidates x d k0)) as [c|] eqn:E; [|exact IH].
  intros H. injection H as Hk Hc. subst k0 c.
  apply closest_In, candidates_valid in E. exact E.
Qed.

Lemma decimal_length (x : Z) :
  (0 <= x < 10 ^ 16)%Z -> (String.length (decimal x) <= 16)%nat.
Proof.
  intros H. unfold decimal.
  apply (digits_fuel_length _ x "" 16); [exact H | lia].
Qed.

Lemma positive_to_string_exact (x : Z) :
  (0 < x < 2 ^ 53)%Z -> positive_to_string x = decimal x.
Proof.
  intros H. unfold positive_to_string.
  set (d := Z.of_nat (String.length (decimal x))).
  assert (d <= 16)%Z as Hd.
  { unfold d. pose proof (decimal_length x). 
    assert (2 ^ 53 < 10 ^ 16)%Z by reflexivity. lia. }
  destruct (shortest x d _) as [[k [n s]]|] eqn:E; [|reflexivity].
  apply shortest_valid in E. destruct E as [V Hn].
  unfold valid in V. apply andb_true_iff in V. destruct V as [_ V].
  destruct (round_double (s * 10 ^ (n - k))) as [y|] eqn:R; [|discriminate].
  apply Z.eqb_eq in V. subst y.
  apply round_double_exact in R; [|lia].
  unfold format. destruct (n <=? 21)%Z eqn:L.
  - rewrite R. reflexivity.
  - apply Z.leb_gt in L. lia.
Qed.

Lemma number_to_string_exact (N : Z) :
  (- 2 ^ 53 < N < 2 ^ 53)%Z ->
  number_to_string (finite (N <? 0)%Z (Z.abs N)) = Z_decimal N.
Proof.
  intros H. unfold number_to_string, Z_decimal.
  destruct (Z.abs N =? 0)%Z eqn:E.
  - apply Z.eqb_eq in E. assert (N = 0)%Z as -> by lia. reflexivity.
  - apply Z.eqb_neq in E. rewrite positive_to_string_exact by lia.
    destruct (N <? 0)%Z eqn:S; [reflexivity|].
    apply Z.ltb_ge in S. rewrite Z.abs_eq by lia. reflexivity.
Qed.

Lemma parseInt_digits (s : string) (neg : bool) :
  all_digits s = true -> s <> "" ->
  parseInt ((if neg then "-" else "") ++ s)
  = match parse_digits 10 s None with
    | Some m => to_number neg m
    | None => NaN
    end.
Proof.
  intros A N. destruct s as [|c r]; [contradiction N; reflexivity|].
  pose proof A as A'. cbn [all_digits] in A'. apply andb_true_iff in A'.
  destruct A' as [Hc Hr].
  destruct (digit_is_plain c Hc) as (W & S & _).
  unfold parseInt. destruct neg.
  - change ("-" ++ String c r) with (String "-" (String c r)).
    change (trim_start (String "-" (String c r))) with (String "-" (String c r)).
    change (read_sign (String "-" (String c r))) with (true, String c r).
    cbv beta iota. rewrite (read_radix_digits _ A). reflexivity.
  - change ("" ++ String c r) with (String c r).
    cbn [trim_start]. rewrite W, S. cbv beta iota.
    rewrite (read_radix_digits _ A). reflexivity.
Qed.

Lemma parseInt_decimal (N : Z) :
  (- 2 ^ 53 < N < 2 ^ 53)%Z ->
  parseInt (Z_decimal N) = finite (N <? 0)%Z (Z.abs N).
Proof.
  intros H.
  assert (Z_decimal N = (if (N <? 0)%Z then "-" else "") ++ decimal (Z.abs N)) as ->.
  { unfold Z_decimal. destruct (N <? 0)%Z eqn:S; [reflexivity|].
    apply Z.ltb_ge in S. rewrite Z.abs_eq by lia. reflexivity. }
  destruct (decimal_shape (Z.abs N)) as (c & r & E & Hc & Hr); [lia|].
  rewrite parseInt_digits.
  - rewrite parse_decimal by lia. apply to_number_exact. lia.
  - rewrite E. cbn [all_digits]. rewrite Hc, Hr. reflexivity.
  - rewrite E. discriminate.
Qed.

Lemma append_empty (s : string) : s ++ "" = s.
Proof. induction s as [|c r IH]; cbn [append]; [reflexivity|]. rewrite IH. reflexivity. Qed.

Lemma append_append (a b c : string) : (a ++ b) ++ c = a ++ b ++ c.
Proof. induction a as [|x r IH]; cbn [append]; [reflexivity|]. rewrite IH. reflexivity. Qed.

Lemma stringify_choice (v : string) (neg : bool) (m : Z) :
  number_to_string (finite neg m) = v ->
  JSON_stringify (choice_answer (finite neg m))
  = "{" ++ json_quote "answer" ++ ":{" ++ json_quote "type" ++ ":"
    ++ json_quote "Choice" ++ "," ++ json_quote "value" ++ ":" ++ v ++ "}}".
Proof.
  intros <-. unfold choice_answer. cbn [JSON_stringify].
  generalize (number_to_string (finite neg m)). intros v.
  rewrite !append_empty, !append_append. reflexivity.
Qed.

(** C8 (amended): for every integer [N] with [|N| < 2^53], the line
    [\c N], [N] in decimal, gives to [handleParsedCommand], once, exactly
    the JSON text of [{answer: {type: "Choice", value: N}}]. *)
Theorem choice_forwards_answer (uq : string -> url_result) (eng : Engine) (N : Z)
    (a : Assistant) :
  (- 2 ^ 53 < N < 2 ^ 53)%Z ->
  effects_of (_onLine uq eng (choice_line N) a)
  = [invoke (next_promise a)
       (conversation_handleParsedCommand (spec_choice_json N))].
Proof.
  intros H. rewrite onLine_select.
  change (select (choice_line N)) with (br_choice (Z_decimal N)).
  cbn [exec]. rewrite (parseInt_decimal N H).
  rewrite (stringify_choice (Z_decimal N)) by (apply number_to_string_exact; exact H).
  reflexivity.
Qed.

Lemma choice_forwards_answer_witness :
  effects_of (_onLine no_query sample_engine "\c 3" new_Assistant)
  = [invoke 0 (conversation_handleParsedCommand (spec_choice_json 3))].
Proof.
  apply (choice_forwards_answer no_query sample_engine 3 new_Assistant).
  split; reflexivity.
Defined.

(** C8, as stated for every integer, fails: [2^53 + 1] is no double, and
    [\c 9007199254740993] sends the answer with value 9007199254740992. *)
Lemma choice_beyond_double :
  effects_of (_onLine no_query sample_engine (choice_line (2 ^ 53 + 1))
                new_Assistant)
  = [invoke 0 (conversation_handleParsedCommand (spec_choice_json (2 ^ 53)))]
  /\ spec_choice_json (2 ^ 53) <> spec_choice_json (2 ^ 53 + 1)
  /\ choice_line (2 ^ 53 + 1) = "\c 9007199254740993".
Proof.
  split; [vm_compute; reflexivity|]. split; [|vm_compute; reflexivity].
  vm_compute. discriminate.
Qed.

(** ** What a method leaves unchanged *)

Lemma keeps_bind {A B X} (f : Assistant -> X) (m : M A) (k : A -> M B) :
  keeps f m -> (forall x, keeps f (k x)) -> keeps f (bind m k).
Proof.
  unfold keeps, bind, state_of. intros Hm Hk a. specialize (Hm a).
  destruct (m a) as [[x a1] e1]. specialize (Hk x a1).
  destruct (k x a1) as [[y a2] e2]. cbn [fst snd] in *. congruence.
Qed.

Lemma keeps_for_each {Y X} (f : Assistant -> X) (l : list Y)
    (g : Y -> M unit) :
  (forall y, keeps f (g y)) -> keeps f (for_each l g).
Proof.
  intros H. induction l as [|y r IH]; cbn [for_each].
  - intros a. reflexivity.
  - apply keeps_bind; [apply H | intros _; exact IH].
Qed.

Lemma attach_in_phase1 (p : promise) (ch : chain)
    (l : list (promise * subscription)) :
  existsb (fun e => is_phase1 (sub_reaction (snd e))) (attach_in p ch l)
  = existsb (fun e => is_phase1 (sub_reaction (snd e))) l.
Proof.
  induction l as [|[q s] r IH]; [reflexivity|].
  cbn [attach_in]. destruct (Nat.eqb q p); cbn [existsb snd sub_reaction].
  - reflexivity.
  - rewrite IH. reflexivity.
Qed.

Lemma keeps_attach_phase1 (p : promise) (ch : chain) :
  keeps phase1_pending (attach p ch).
Proof. intros a. apply attach_in_phase1. Qed.

(** Splits a method into its primitive steps; each of them computes. *)
Ltac keeps_steps :=
  repeat first
    [ apply keeps_attach_phase1
    | apply keeps_bind; [|intros ?]
    | apply keeps_for_each; intros ?
    | (intros ?; reflexivity) ].

Section Frames.

Variable uq : string -> url_result.
Variable eng : Engine.

Lemma keeps_quit : keeps oauth_of _quit /\ keeps phase1_pending _quit.
Proof. split; unfold _quit; keeps_steps. Qed.

Lemma keeps_delegate {X} (f : Assistant -> X) (c : delegate_call) :
  keeps f (CommandLineDelegate c).
Proof. destruct c; intros a; reflexivity. Qed.

(** Every branch but the start of a pairing leaves the stored kind and
    session, and adds no first phase to the promises. *)
Lemma keeps_exec_oauth (b : branch) :
  match b with
  | br_device args =>
      is_str (arg 0 args) "start-oauth" || is_str (arg 0 args) "start-oauth2"
      = false
  | _ => True
  end ->
  keeps oauth_of (exec uq eng b) /\ keeps phase1_pending (exec uq eng b).
Proof.
  destruct b; intros H; cbn [exec];
    unfold _quit, _help, _runAppCommand, _runDeviceCommand,
      _runMessagingCommand, _runPermissionCommand, _testLog, return_undefined;
    try rewrite H; split; split_tests; keeps_steps.
Qed.

Lemma keeps_onLine_oauth (line : string) :
  starts_oauth line = false ->
  keeps oauth_of (_onLine uq eng line)
  /\ keeps phase1_pending (_onLine uq eng line).
Proof.
  intros H. rewrite onLine_select.
  assert (keeps oauth_of (exec uq eng (select line))
          /\ keeps phase1_pending (exec uq eng (select line))) as [K1 K2].
  { apply keeps_exec_oauth. unfold starts_oauth in H.
    destruct (select line); try exact I. exact H. }
  split; (apply keeps_bind; [assumption|]); intros [[p|]|e]; keeps_steps.
Qed.

(** Every branch but [quit] leaves the read line interface open. *)
Lemma keeps_exec_open (b : branch) :
  b <> br_quit -> keeps rl_closed (exec uq eng b).
Proof.
  destruct b; intros H; try (contradiction H; reflexivity); cbn [exec];
    unfold _help, _runAppCommand, _runDeviceCommand,
      _runMessagingCommand, _runPermissionCommand, _testLog, return_undefined;
    split_tests; keeps_steps.
Qed.

Lemma keeps_onLine_open (line : string) :
  select line <> br_quit -> keeps rl_closed (_onLine uq eng line).
Proof.
  intros H. rewrite onLine_select.
  apply keeps_bind; [apply keeps_exec_open; exact H|].
  intros [[p|]|e]; keeps_steps.
Qed.

End Frames.

(** ** Settlements and the stored pairing *)

Lemma take_phase1 (p : promise) (l rest : list (promise * subscription))
    (s : subscription) :
  take p l = Some (s, rest) ->
  existsb (fun e => is_phase1 (sub_reaction (snd e))) l = false ->
  is_phase1 (sub_reaction s) = false
  /\ existsb (fun e => is_phase1 (sub_reaction (snd e))) rest = false.
Proof.
  revert rest. induction l as [|[q t] r IH]; intros rest; cbn [take];
    [discriminate|].
  cbn [existsb snd]. intros T E. apply orb_false_iff in E. destruct E as [E1 E2].
  destruct (Nat.eqb q p).
  - injection T as <- <-. split; assumption.
  - destruct (take p r) as [[s' r']|]; [|discriminate].
    injection T as <- <-. destruct (IH r' eq_refl E2) as [I1 I2].
    split; [exact I1|]. cbn [existsb snd]. rewrite E1, I2. reflexivity.
Qed.

Lemma react_keeps (r : reaction) (v : settled) (m : M unit) :
  is_phase1 r = false -> react r v = Some m ->
  keeps oauth_of m /\ keeps phase1_pending m.
Proof.
  intros P R.
  destruct r; try discriminate P; destruct v; try discriminate R;
    injection R as <-; split; keeps_steps.
Qed.

Lemma continue_keeps {X} (f : Assistant -> X) (ch : chain) :
  keeps f (continue_with ch).
Proof. destruct ch; intros a; reflexivity. Qed.

Lemma reject_keeps {X} (f : Assistant -> X) (ch : chain) (e : error) :
  keeps f (reject_with ch e).
Proof. destruct ch; intros a; reflexivity. Qed.

Lemma settle_keeps (p : promise) (o : outcome) (a a' : Assistant)
    (es : list effect) (s : subscription)
    (rest : list (promise * subscription)) :
  take p (promises a) = Some (s, rest) ->
  is_phase1 (sub_reaction s) = false ->
  settle p o a = Some (a', es) ->
  oauth_of a' = oauth_of a
  /\ phase1_pending a' = phase1_pending (forget rest a).
Proof.
  intros T P. unfold settle. rewrite T. destruct o as [v|e].
  - destruct (react (sub_reaction s) v) as [m|] eqn:R; [|discriminate].
    destruct (react_keeps _ _ _ P R) as [K1 K2].
    intros H. injection H as <- _. split.
    + apply (keeps_bind oauth_of m (fun _ => continue_with (sub_chain s)) K1
               (fun _ => continue_keeps _ _) (forget rest a)).
    + apply (keeps_bind phase1_pending m
               (fun _ => continue_with (sub_chain s)) K2
               (fun _ => continue_keeps _ _) (forget rest a)).
  - intros H. injection H as <- _. split.
    + exact (reject_keeps oauth_of (sub_chain s) e (forget rest a)).
    + exact (reject_keeps phase1_pending (sub_chain s) e (forget rest a)).
Qed.

(** A rejection changes nothing of the stored pairing, whatever was
    chained on the promise. *)
Lemma settle_rejected_keeps (p : promise) (e : error) (a a' : Assistant)
    (es : list effect) :
  settle p (rejected e) a = Some (a', es) -> oauth_of a' = oauth_of a.
Proof.
  unfold settle. destruct (take p (promises a)) as [[s rest]|]; [|discriminate].
  intros H. injection H as <- _.
  exact (reject_keeps oauth_of (sub_chain s) e (forget rest a)).
Qed.

(** A run of at least one event is a step and the run of the rest. *)
Lemma run_cons (uq : string -> url_result) (ev : event) (rest : list event)
    (a a' : Assistant) (es : list effect) :
  run uq (ev :: rest) a = Some (a', es) ->
  exists a1 e1 e2,
    step uq ev a = Some (a1, e1)
    /\ run uq rest a1 = Some (a', e2)
    /\ es = (e1 ++ e2)%list.
Proof.
  cbn [run]. destruct (step uq ev a) as [[a1 e1]|]; [|discriminate].
  destruct (existsb is_uncaught e1).
  - destruct rest; [|discriminate]. intros H. injection H as <- <-.
    exists a1, e1, []. rewrite app_nil_r.
    split; [reflexivity|]. split; reflexivity.
  - destruct (run uq rest a1) as [[a2 e2]|] eqn:R; [|discriminate].
    intros H. injection H as <- <-. exists a1, e1, e2.
    split; [reflexivity|]. split; [exact R | reflexivity].
Qed.

Section Runs.

Variable uq : string -> url_result.

Lemma step_quiet (ev : event) (a a' : Assistant) (es : list effect) :
  step uq ev a = Some (a', es) -> quiet a ev = true ->
  oauth_of a' = oauth_of a.
Proof.
  destruct ev as [eng line | | c | p o]; cbn [step quiet].
  - intros H Q. injection H as <- _.
    apply negb_true_iff in Q. apply (keeps_onLine_oauth uq eng line Q).
  - destruct (rl_closed a); [discriminate|]. intros H _. injection H as <- _.
    apply keeps_quit.
  - intros H _. injection H as <- _. apply keeps_delegate.
  - destruct o as [v|e];
      [|intros H _; apply (settle_rejected_keeps p e a a' es H)].
    unfold settles_phase1. intros H Q.
    destruct (take p (promises a)) as [[s rest]|] eqn:T.
    + apply negb_true_iff in Q.
      apply (settle_keeps p (fulfilled v) a a' es s rest T Q H).
    + unfold settle in H. rewrite T in H. discriminate H.
Qed.


(** Without a line that starts a pairing, no first phase is ever pending
    and the stored kind and session stay as they are. *)
Lemma step_line_free (ev : event) (a a' : Assistant) (es : list effect) :
  step uq ev a = Some (a', es) -> line_free ev = true ->
  phase1_pending a = false ->
  oauth_of a' = oauth_of a /\ phase1_pending a' = false.
Proof.
  destruct ev as [eng line | | c | p o]; cbn [step line_free].
  - intros H Q P. injection H as <- _.
    apply negb_true_iff in Q.
    destruct (keeps_onLine_oauth uq eng line Q) as [K1 K2].
    split; [apply K1 | rewrite K2; exact P].
  - destruct (rl_closed a); [discriminate|]. intros H _ P. injection H as <- _.
    destruct keeps_quit as [K1 K2]. split; [apply K1 | rewrite K2; exact P].
  - intros H _ P. injection H as <- _.
    split; [apply keeps_delegate | rewrite keeps_delegate; exact P].
  - intros H _ P.
    destruct (take p (promises a)) as [[s rest]|] eqn:T.
    + destruct (take_phase1 _ _ _ _ T P) as [P1 P2].
      destruct (settle_keeps p o a a' es s rest T P1 H) as [K1 K2].
      split; [exact K1 | rewrite K2; exact P2].
    + unfold settle in H. rewrite T in H. discriminate H.
Qed.

Lemma run_line_free (evs : list event) :
  forall (a a' : Assistant) (es : list effect),
    run uq evs a = Some (a', es) -> forallb line_free evs = true ->
    phase1_pending a = false ->
    oauth_of a' = oauth_of a /\ phase1_pending a' = false.
Proof.
  induction evs as [|ev rest IH]; intros a a' es.
  - cbn [run]. intros H _ P. injection H as <- _.
    split; [reflexivity | exact P].
  - intros H Q P. cbn [forallb] in Q.
    apply andb_true_iff in Q. destruct Q as [Q1 Q2].
    destruct (run_cons uq ev rest a a' es H) as (a1 & e1 & e2 & S & R & _).
    destruct (step_line_free ev a a1 e1 S Q1 P) as [O1 P1].
    destruct (IH a1 a' e2 R Q2 P1) as [O2 P2].
    split; [congruence | exact P2].
Qed.

End Runs.

(** ** The lines of the pairing *)

Lemma start_oauth_line (uq : string -> url_result) (eng : Engine) (kind : string)
    (a : Assistant) :
  no_space kind = true ->
  _onLine uq eng ("\d start-oauth " ++ kind) a
  = (tt,
     {| _oauthKind := js_string kind;
        _oauthSession := _oauthSession a;
        rl_closed := rl_closed a;
        promises := (next_promise a,
                     mkSubscription on_oauth_started chain_prompt_done)
                    :: promises a;
        next_promise := S (next_promise a) |},
     [invoke (next_promise a) (factory_runOAuth2 (js_string kind) None)]).
Proof.
  intros H. rewrite onLine_select.
  change (select ("\d start-oauth " ++ kind))
    with (br_device ("start-oauth" :: split_space kind)).
  rewrite (split_space_word kind H).
  unfold bind, exec, _runDeviceCommand, arg. cbn.
  rewrite Nat.eqb_refl. reflexivity.
Qed.

Lemma complete_oauth_line (uq : string -> url_result) (eng : Engine)
    (rest : string) (a : Assistant) :
  exists word more,
    split_space rest = word :: more
    /\ _onLine uq eng ("\d complete-oauth " ++ rest) a
       = match uq word with
         | url_query q =>
             (tt, subscribed no_reaction chain_prompt_done a,
              [invoke (next_promise a)
                 (factory_runOAuth2 (_oauthKind a) (Some
                    {| httpVersion := "1.0";
                       headers := [];
                       rawHeaders := [];
                       method := "GET";
                       url := word;
                       query := q;
                       session := _oauthSession a |}))])
         | url_throws e => (tt, a, [uncaught e])
         end.
Proof.
  destruct (split_space_first rest) as (word & more & E & _).
  exists word, more. split; [exact E|].
  rewrite onLine_select.
  change (select ("\d complete-oauth " ++ rest))
    with (br_device ("complete-oauth" :: split_space rest)).
  rewrite E.
  unfold bind, exec, _runDeviceCommand, arg, subscribed. cbn.
  destruct (uq word); cbn; [reflexivity|].
  rewrite Nat.eqb_refl. reflexivity.
Qed.

Lemma settle_head (p : promise) (s : subscription)
    (l : list (promise * subscription)) :
  take p ((p, s) :: l) = Some (s, l).
Proof. cbn [take]. rewrite Nat.eqb_refl. reflexivity. Qed.



(** C6 (amended): when no line before has started a pairing,
    [\d complete-oauth ...] raises no error for the missing first phase.
    When [Url.parse] gives the query of the url, the handler calls
    [runOAuth2] with the kind [null] and a request whose session is the
    empty mapping, and returns its promise, which is awaited; the
    assistant is as before but for that promise.  When the promise is
    fulfilled the prompt is drawn; when it is rejected the error is thrown
    again by [done], with no message and no prompt.  When [Url.parse]
    throws on the url the factory is not called and that error is thrown
    again likewise. *)
Theorem complete_oauth_without_start (uq : string -> url_result)
    (eng : Engine) (evs : list event) (rest : string) (a : Assistant)
    (es : list effect) :
  run uq evs new_Assistant = Some (a, es) ->
  forallb line_free evs = true ->
  exists word more,
    split_space rest = word :: more
    /\ match uq word with
       | url_query q =>
           dispatch uq eng ("\d complete-oauth " ++ rest) a
           = (returns (Some (next_promise a)),
              subscribed no_reaction unchained a,
              [invoke (next_promise a)
                 (factory_runOAuth2 js_null
                    (Some (oauth_request word q [])))])
           /\ _onLine uq eng ("\d complete-oauth " ++ rest) a
              = (tt, subscribed no_reaction chain_prompt_done a,
                 [invoke (next_promise a)
                    (factory_runOAuth2 js_null
                       (Some (oauth_request word q [])))])
           /\ (forall v,
                 settle (next_promise a) (fulfilled v)
                   (subscribed no_reaction chain_prompt_done a)
                 = Some (after_promise a, [rl_prompt]))
           /\ (forall e,
                 settle (next_promise a) (rejected e)
                   (subscribed no_reaction chain_prompt_done a)
                 = Some (after_promise a, [uncaught e]))
       | url_throws e =>
           _onLine uq eng ("\d complete-oauth " ++ rest) a
           = (tt, a, [uncaught e])
       end.
Proof.
  intros R F.
  destruct (run_line_free uq evs _ a es R F eq_refl) as [O _].
  unfold oauth_of in O. cbn in O. injection O as OK OS.
  destruct (complete_oauth_line uq eng rest a) as (word & more & E & L).
  exists word, more. split; [exact E|].
  destruct (uq word) as [e|q] eqn:U; [exact L|].
  split; [|split; [|split]].
  - rewrite dispatch_select.
    change (select ("\d complete-oauth " ++ rest))
      with (br_device ("complete-oauth" :: split_space rest)).
    rewrite E. unfold bind, exec, _runDeviceCommand, arg, subscribed. cbn.
    rewrite U. cbn. rewrite OK, OS. reflexivity.
  - rewrite L, OK, OS. reflexivity.
  - intros v. unfold settle, subscribed. cbn [promises].
    rewrite settle_head. reflexivity.
  - intros e. unfold settle, subscribed. cbn [promises].
    rewrite settle_head. reflexivity.
Qed.

Lemma complete_oauth_without_start_witness :
  exists word more,
    split_space "http://cb?code=7" = word :: more
    /\ match no_query word with
       | url_query q =>
           dispatch no_query sample_engine
             "\d complete-oauth http://cb?code=7" new_Assistant
           = (returns (Some 0),
              subscribed no_reaction unchained new_Assistant,
              [invoke 0
                 (factory_runOAuth2 js_null
                    (Some (oauth_request word q [])))])
           /\ _onLine no_query sample_engine
                "\d complete-oauth http://cb?code=7" new_Assistant
              = (tt, subscribed no_reaction chain_prompt_done new_Assistant,
                 [invoke 0
                    (factory_runOAuth2 js_null
                       (Some (oauth_request word q [])))])
           /\ (forall v,
                 settle 0 (fulfilled v)
                   (subscribed no_reaction chain_prompt_done new_Assistant)
                 = Some (after_promise new_Assistant, [rl_prompt]))
           /\ (forall e,
                 settle 0 (rejected e)
                   (subscribed no_reaction chain_prompt_done new_Assistant)
                 = Some (after_promise new_Assistant, [uncaught e]))
       | url_throws e =>
           _onLine no_query sample_engine
             "\d complete-oauth http://cb?code=7" new_Assistant
           = (tt, new_Assistant, [uncaught e])
       end.
Proof.
  apply (complete_oauth_without_start no_query sample_engine []
           "http://cb?code=7" new_Assistant []); reflexivity.
Defined.

(** C6, as stated, fails: with no pairing started, [\d complete-oauth
    http://cb] calls the factory with the kind [null] and the empty
    session, and when the factory rejects that call the error is thrown
    out of the promise chain: nothing is written, no prompt is drawn, and
    no event follows.  Without a url the line raises an error of its own,
    the [TypeError] of [Url.parse(undefined)], before the factory is
    called. *)
Lemma complete_oauth_without_start_ends_session :
  run no_query [ev_line sample_engine "\d complete-oauth http://cb";
                ev_settle 0 (rejected "no such kind")] new_Assistant
  = Some (after_promise new_Assistant,
          [invoke 0
             (factory_runOAuth2 js_null
                (Some (oauth_request "http://cb" [] [])));
           uncaught "no such kind"])
  /\ existsb is_prompt
       [invoke 0
          (factory_runOAuth2 js_null
             (Some (oauth_request "http://cb" [] [])));
        uncaught "no such kind"] = false
  /\ (forall ev,
       run no_query [ev_line sample_engine "\d complete-oauth http://cb";
                     ev_settle 0 (rejected "no such kind"); ev]
         new_Assistant
       = None)
  /\ _onLine no_query sample_engine "\d complete-oauth" new_Assistant
     = (tt, new_Assistant, [uncaught "TypeError"]).
Proof. repeat split. Qed.

(** ** Waiting for a deferred result *)

Lemma bind_run {A B} (m : M A) (k : A -> M B) (a : Assistant) :
  bind m k a
  = (value_of (k (value_of (m a)) (state_of (m a))),
     state_of (k (value_of (m a)) (state_of (m a))),
     (effects_of (m a)
      ++ effects_of (k (value_of (m a)) (state_of (m a))))%list).
Proof.
  unfold bind, value_of, state_of, effects_of.
  destruct (m a) as [[x a1] e1]. cbn [fst snd].
  destruct (k x a1) as [[y a2] e2]. reflexivity.
Qed.

Lemma value_bind_ret {A B} (m : M A) (x : B) (a : Assistant) :
  value_of (bind m (fun _ => ret x) a) = x.
Proof. rewrite bind_run. reflexivity. Qed.

(** A handler that returns a promise has just made it, has chained nothing
    on it yet and has drawn no prompt. *)
Lemma exec_promise (uq : string -> url_result) (eng : Engine) (b : branch)
    (a : Assistant) (p : promise) :
  value_of (exec uq eng b a) = returns (Some p) ->
  exists r,
    promises (state_of (exec uq eng b a))
    = (p, mkSubscription r unchained) :: promises a
    /\ existsb is_prompt (effects_of (exec uq eng b a)) = false.
Proof.
  destruct b; cbn [exec];
    unfold _runAppCommand, _runDeviceCommand, _runMessagingCommand,
      _runPermissionCommand, return_undefined;
    split_tests; intros H;
    try (rewrite value_bind_ret in H; discriminate H);
    try discriminate H;
    injection H as <-; eexists; split; reflexivity.
Qed.

Lemma awaited_attach (p : promise) (r : reaction) (a : Assistant)
    (l : list (promise * subscription)) :
  promises a = (p, mkSubscription r unchained) :: l ->
  awaited (state_of (attach p chain_prompt_done a)) = p :: awaited (forget l a).
Proof.
  intros H. unfold attach, modify, awaited, state_of. cbn [fst snd promises].
  rewrite H. cbn [attach_in]. rewrite Nat.eqb_refl. reflexivity.
Qed.

Lemma settle_keeps_open (p : promise) (o : outcome) (a a' : Assistant)
    (es : list effect) :
  settle p o a = Some (a', es) -> rl_closed a' = rl_closed a.
Proof.
  unfold settle. destruct (take p (promises a)) as [[s rest]|]; [|discriminate].
  destruct o as [v|e].
  - destruct (react (sub_reaction s) v) as [m|] eqn:R; [|discriminate].
    intros H. injection H as <- _.
    assert (keeps rl_closed m) as K.
    { destruct (sub_reaction s); destruct v; try discriminate R;
        injection R as <-; keeps_steps. }
    apply (keeps_bind rl_closed m (fun _ => continue_with (sub_chain s)) K
             (fun _ => continue_keeps _ _) (forget rest a)).
  - intros H. injection H as <- _.
    exact (reject_keeps rl_closed (sub_chain s) e (forget rest a)).
Qed.

(** C1 (amended): a line is taken whenever the read line interface is
    open, whatever is pending, so several results can be awaited at once.
    For one line: when its handler returns a promise, dispatching the line
    draws no prompt and the promise is awaited; when an awaited promise is
    fulfilled its callback runs and the prompt is drawn right after. *)
Theorem prompt_waits_for_result (uq : string -> url_result) (eng : Engine)
    (line : string) (a : Assistant) :
  (rl_closed a = false ->
   exists a' es, step uq (ev_line eng line) a = Some (a', es))
  /\ (forall p,
        value_of (dispatch uq eng line a) = returns (Some p) ->
        existsb is_prompt (effects_of (_onLine uq eng line a)) = false
        /\ In p (awaited (state_of (_onLine uq eng line a))))
  /\ (forall p s rest v m,
        take p (promises a) = Some (s, rest) ->
        sub_chain s = chain_prompt_done ->
        react (sub_reaction s) v = Some m ->
        settle p (fulfilled v) a
        = Some (state_of (m (forget rest a)),
                (effects_of (m (forget rest a)) ++ [rl_prompt])%list)).
Proof.
  split; [|split].
  - intros H. cbn [step]. eexists. eexists. reflexivity.
  - intros p H. rewrite dispatch_select in H.
    destruct (exec_promise uq eng (select line) a p H) as (r & P & E).
    rewrite onLine_select, bind_run, H. cbn [state_of effects_of fst snd].
    split.
    + rewrite existsb_app. fold (effects_of (exec uq eng (select line) a)).
      rewrite E. reflexivity.
    + fold (state_of (exec uq eng (select line) a)).
      fold (state_of (attach p chain_prompt_done
                        (state_of (exec uq eng (select line) a)))).
      rewrite (awaited_attach p r _ _ P). left. reflexivity.
  - intros p s rest v m T C R. unfold settle. rewrite T, R, C.
    rewrite bind_run. reflexivity.
Qed.

Lemma prompt_waits_for_result_witness :
  (exists a' es,
     step no_query (ev_line sample_engine "\m identity bob")
       (subscribed on_account chain_prompt_done new_Assistant)
     = Some (a', es))
  /\ (existsb is_prompt
        (effects_of (_onLine no_query sample_engine "\m identity bob"
                       (subscribed on_account chain_prompt_done
                          new_Assistant))) = false
      /\ In 1 (awaited (state_of
                 (_onLine no_query sample_engine "\m identity bob"
                    (subscribed on_account chain_prompt_done
                       new_Assistant)))))
  /\ settle 0 (fulfilled (val_account "alice"))
       (subscribed on_account chain_prompt_done new_Assistant)
     = Some (state_of (log "alice"
                         (forget [] (subscribed on_account chain_prompt_done
                                       new_Assistant))),
             [console_log "alice"; rl_prompt]).
Proof.
  pose proof (prompt_waits_for_result no_query sample_engine
                "\m identity bob"
                (subscribed on_account chain_prompt_done new_Assistant))
    as [H1 [H2 H3]].
  split; [|split].
  - apply H1. reflexivity.
  - apply H2. reflexivity.
  - apply (H3 0 (mkSubscription on_account chain_prompt_done) []
              (val_account "alice") (log "alice")); reflexivity.
Defined.

(** C1, as stated, fails: two lines whose handlers return a promise leave
    two awaited results, and a later line prints and draws its prompt
    before the output of an earlier one. *)
Lemma two_results_awaited :
  exists a es,
    run no_query [ev_line sample_engine "\m identity a";
                  ev_line sample_engine "\m identity b"] new_Assistant
    = Some (a, es)
    /\ awaited a = [1; 0]
    /\ ~ (length (awaited a) <= 1)
    /\ option_map snd
         (run no_query [ev_line sample_engine "hello";
                        ev_line sample_engine "\a list";
                        ev_render (send "hi");
                        ev_settle 0 (fulfilled val_undefined)] new_Assistant)
       = Some [invoke 0 (conversation_handleCommand "hello");
               console_log "- a1 App: an app"; rl_prompt;
               console_log ">> hi"; rl_prompt].
Proof.
  eexists. eexists. split; [reflexivity|]. split; [reflexivity|].
  split; [cbn; lia | reflexivity].
Qed.

(** C2 (amended): the failure of a handler is not caught and nothing is
    written for it.  A rejected result that a line awaits is thrown again
    by [done], with no message and no prompt, and the promise is dropped;
    an exception of the handler itself is thrown again likewise.  A failure
    does not close the read line interface: only [\q] and the interrupt
    close it. *)
Theorem handler_failure_is_rethrown (uq : string -> url_result) (a : Assistant) :
  (forall p s rest e,
     take p (promises a) = Some (s, rest) ->
     sub_chain s = chain_prompt_done ->
     settle p (rejected e) a = Some (forget rest a, [uncaught e]))
  /\ (forall eng line e,
        value_of (dispatch uq eng line a) = throws e ->
        state_of (_onLine uq eng line a) = state_of (dispatch uq eng line a)
        /\ effects_of (_onLine uq eng line a)
           = (effects_of (dispatch uq eng line a) ++ [uncaught e])%list)
  /\ (forall ev a' es,
        step uq ev a = Some (a', es) ->
        rl_closed a = false -> rl_closed a' = true ->
        ev = ev_sigint
        \/ exists eng line, ev = ev_line eng line /\ select line = br_quit).
Proof.
  split; [|split].
  - intros p s rest e T C. unfold settle. rewrite T, C. reflexivity.
  - intros eng line e H. unfold _onLine. rewrite bind_run, H.
    split; reflexivity.
  - intros ev a' es S O C.
    destruct ev as [eng line | | c | p o]; cbn [step] in S.
    + right. exists eng, line. split; [reflexivity|].
      injection S as <- _.
      destruct (select line) eqn:B; try reflexivity;
        (assert (select line <> br_quit) as N by (rewrite B; discriminate);
         rewrite (keeps_onLine_open uq eng line N a) in C; congruence).
    + left. reflexivity.
    + injection S as <- _. rewrite (keeps_delegate rl_closed c a) in C.
      congruence.
    + rewrite (settle_keeps_open p o a a' es S) in C. congruence.
Qed.

Lemma handler_failure_is_rethrown_witness :
  settle 0 (rejected "no such identity")
    (subscribed on_account chain_prompt_done new_Assistant)
  = Some (forget [] (subscribed on_account chain_prompt_done new_Assistant),
          [uncaught "no such identity"])
  /\ effects_of (_onLine no_query sample_engine "\d complete-oauth"
                   (subscribed on_account chain_prompt_done new_Assistant))
     = [uncaught "TypeError"]
  /\ (ev_sigint = ev_sigint
      \/ exists eng line,
           ev_sigint = ev_line eng line /\ select line = br_quit).
Proof.
  pose proof (handler_failure_is_rethrown no_query
                (subscribed on_account chain_prompt_done new_Assistant))
    as [H1 [H2 H3]].
  split; [|split].
  - apply (H1 0 (mkSubscription on_account chain_prompt_done) []);
      reflexivity.
  - apply (H2 sample_engine "\d complete-oauth" "TypeError"). reflexivity.
  - apply (H3 ev_sigint
              (state_of (_quit (subscribed on_account chain_prompt_done
                                  new_Assistant)))
              (effects_of (_quit (subscribed on_account chain_prompt_done
                                    new_Assistant)))); reflexivity.
Defined.

(** C2, as stated, fails: when the result of [\m identity x] is rejected,
    nothing is written to the terminal and no prompt is drawn; the error
    leaves the promise chain as an uncaught exception. *)
Lemma rejected_result_is_not_reported :
  exists a es,
    run no_query [ev_line sample_engine "\m identity x";
                  ev_settle 0 (rejected "no such identity")] new_Assistant
    = Some (a, es)
    /\ es = [invoke 0 (messaging_getAccountForIdentity (js_string "x"));
             uncaught "no such identity"]
    /\ existsb is_console_log es = false
    /\ existsb is_prompt es = false.
Proof. eexists. eexists. repeat split. Qed.

(** C3 (amended): [\d start-oauth <kind>] stores the kind at once, before
    the result of the call is known, and leaves the stored session.  When
    the call fails the session is still the one stored before and the kind
    is the new one; the error is thrown again by [done], with no message
    and no prompt.  When the call is fulfilled the session it gave is
    stored, the redirect is printed and the prompt is drawn.  No event
    other than such a line or such a fulfilment changes the stored pair. *)
Theorem start_oauth_stores_kind_first (uq : string -> url_result) (eng : Engine)
    (kind : string) (a : Assistant) (e : error) (redirect : string)
    (sess : Session) :
  no_space kind = true ->
  oauth_of (state_of (_onLine uq eng ("\d start-oauth " ++ kind) a))
  = (js_string kind, _oauthSession a)
  /\ effects_of (_onLine uq eng ("\d start-oauth " ++ kind) a)
     = [invoke (next_promise a) (factory_runOAuth2 (js_string kind) None)]
  /\ (exists a2,
        settle (next_promise a) (rejected e)
          (state_of (_onLine uq eng ("\d start-oauth " ++ kind) a))
        = Some (a2, [uncaught e])
        /\ oauth_of a2 = (js_string kind, _oauthSession a))
  /\ (exists a2,
        settle (next_promise a) (fulfilled (val_oauth redirect sess))
          (state_of (_onLine uq eng ("\d start-oauth " ++ kind) a))
        = Some (a2, [console_log redirect; rl_prompt])
        /\ oauth_of a2 = (js_string kind, sess))
  /\ (forall ev a0 a' es,
        step uq ev a0 = Some (a', es) -> quiet a0 ev = true ->
        oauth_of a' = oauth_of a0).
Proof.
  intros H. rewrite (start_oauth_line uq eng kind a H).
  cbn [state_of effects_of fst snd].
  split; [reflexivity|]. split; [reflexivity|]. split; [|split].
  - eexists. unfold settle. cbn [promises]. rewrite settle_head.
    split; reflexivity.
  - eexists. unfold settle. cbn [promises]. rewrite settle_head.
    split; reflexivity.
  - intros ev a0 a' es. apply step_quiet.
Qed.

Lemma start_oauth_stores_kind_first_witness :
  oauth_of (state_of (_onLine no_query sample_engine "\d start-oauth twitter"
                        new_Assistant))
  = (js_string "twitter", [])
  /\ exists a2,
       settle 0 (rejected "denied")
         (state_of (_onLine no_query sample_engine "\d start-oauth twitter"
                      new_Assistant))
       = Some (a2, [uncaught "denied"])
       /\ oauth_of a2 = (js_string "twitter", []).
Proof.
  pose proof (start_oauth_stores_kind_first no_query sample_engine "twitter"
                new_Assistant "denied" "http://auth" [] eq_refl)
    as [H1 [_ [H3 _]]].
  split; [exact H1 | exact H3].
Defined.

(** C3, as stated, fails: after [\d start-oauth twitter] and the rejection
    of its promise the stored kind is ["twitter"], not the [null] it was,
    and nothing was written to the terminal. *)
Lemma failed_start_oauth_changes_kind :
  exists a es,
    run no_query [ev_line sample_engine "\d start-oauth twitter";
                  ev_settle 0 (rejected "denied")] new_Assistant
    = Some (a, es)
    /\ es = [invoke 0 (factory_runOAuth2 (js_string "twitter") None);
             uncaught "denied"]
    /\ _oauthKind a = js_string "twitter"
    /\ oauth_of a <> oauth_of new_Assistant
    /\ existsb is_console_log es = false.
Proof.
  eexists. eexists. split; [reflexivity|]. split; [reflexivity|].
  split; [reflexivity|]. split; [discriminate | reflexivity].
Qed.

(** C4 (the code at [\l]): [_testLog] makes its eight queries and returns
    no promise, so the prompt is drawn at once and none of the eight
    results is awaited; a result that arrives later is printed after that
    prompt and no prompt follows it.  The messaging handlers next to it do
    return their promise, which is then awaited. *)
Theorem testLog_returns_no_promise (uq : string -> url_result) (eng : Engine)
    (a : Assistant) (res : QueryResult) :
  value_of (dispatch uq eng "\l" a) = returns None
  /\ map is_prompt (effects_of (_onLine uq eng "\l" a))
     = [false; false; false; false; false; false; false; false; true]
  /\ length (promises (state_of (_onLine uq eng "\l" a)))
     = 8 + length (promises a)
  /\ awaited (state_of (_onLine uq eng "\l" a)) = awaited a
  /\ (exists a',
        settle (7 + next_promise a) (fulfilled (val_result res))
          (state_of (_onLine uq eng "\l" a))
        = Some (a', [console_log_result res]))
  /\ value_of (dispatch uq eng "\m identity x" a)
     = returns (Some (next_promise a))
  /\ awaited (state_of (_onLine uq eng "\m identity x" a))
     = next_promise a :: awaited a
  /\ value_of (dispatch uq eng "\m search x" a)
     = returns (Some (next_promise a)).
Proof.
  split; [reflexivity|]. split; [reflexivity|]. split; [reflexivity|].
  split; [reflexivity|]. split; [|split; [reflexivity|split]].
  - eexists. unfold settle.
    change (promises (state_of (_onLine uq eng "\l" a)))
      with ((7 + next_promise a,
             mkSubscription on_ibase_result unchained)
            :: tl (promises (state_of (_onLine uq eng "\l" a)))).
    rewrite settle_head. reflexivity.
  - unfold awaited. cbn. rewrite Nat.eqb_refl. reflexivity.
  - reflexivity.
Qed.

(** * Further properties of the session loop *)

(** ** Effects of a method *)

Lemma emits_bind {A B} (P : effect -> bool) (m : M A) (k : A -> M B) :
  emits P m -> (forall x, emits P (k x)) -> emits P (bind m k).
Proof.
  intros Hm Hk a. rewrite bind_run. cbn [effects_of snd].
  rewrite forallb_app. apply andb_true_iff. split; [apply Hm | apply Hk].
Qed.

Lemma emits_for_each {Y} (P : effect -> bool) (l : list Y) (g : Y -> M unit) :
  (forall y, emits P (g y)) -> emits P (for_each l g).
Proof.
  intros H. induction l as [|y r IH]; cbn [for_each].
  - intros a. reflexivity.
  - apply emits_bind; [apply H | intros _; exact IH].
Qed.

(** Splits a method into its primitive steps; each of them computes. *)
Ltac emits_steps :=
  repeat first
    [ apply emits_bind; [|intros ?]
    | apply emits_for_each; intros ?
    | (intros ?; reflexivity) ].

Lemma for_each_log {Y} (l : list Y) (f : Y -> string) (a : Assistant) :
  for_each l (fun y => log (f y)) a
  = (tt, a, map (fun y => console_log (f y)) l).
Proof.
  induction l as [|y r IH]; cbn [for_each map]; [reflexivity|].
  unfold bind. change (log (f y) a) with (tt, a, [console_log (f y)]).
  cbv beta iota. rewrite IH. reflexivity.
Qed.

Lemma exec_no_prompt (uq : string -> url_result) (eng : Engine) (b : branch) :
  emits no_prompt (exec uq eng b).
Proof.
  destruct b; cbn [exec];
    unfold _quit, _help, _runAppCommand, _runDeviceCommand,
      _runMessagingCommand, _runPermissionCommand, _testLog, return_undefined;
    split_tests; emits_steps.
Qed.

Lemma exec_keeps_awaited (uq : string -> url_result) (eng : Engine) (b : branch) :
  keeps awaited (exec uq eng b).
Proof.
  destruct b; cbn [exec];
    unfold _quit, _help, _runAppCommand, _runDeviceCommand,
      _runMessagingCommand, _runPermissionCommand, _testLog, return_undefined;
    split_tests; keeps_steps.
Qed.

(** The three ways [_onLine] ends, by what the handler handed back. *)
Lemma onLine_cases (uq : string -> url_result) (eng : Engine) (line : string)
    (a : Assistant) :
  match value_of (exec uq eng (select line) a) with
  | returns None =>
      _onLine uq eng line a
      = (tt, state_of (exec uq eng (select line) a),
         (effects_of (exec uq eng (select line) a) ++ [rl_prompt])%list)
  | returns (Some p) =>
      _onLine uq eng line a
      = (tt, state_of (attach p chain_prompt_done
                         (state_of (exec uq eng (select line) a))),
         effects_of (exec uq eng (select line) a))
  | throws e =>
      _onLine uq eng line a
      = (tt, state_of (exec uq eng (select line) a),
         (effects_of (exec uq eng (select line) a) ++ [uncaught e])%list)
  end.
Proof.
  rewrite onLine_select, bind_run.
  destruct (value_of (exec uq eng (select line) a)) as [[p|]|e];
    try reflexivity.
  cbn [effects_of snd]. rewrite app_nil_r. reflexivity.
Qed.

Lemma prompts_app (es1 es2 : list effect) :
  prompts (es1 ++ es2) = prompts es1 + prompts es2.
Proof. unfold prompts. rewrite filter_app, length_app. reflexivity. Qed.

Lemma uncaughts_app (es1 es2 : list effect) :
  uncaughts (es1 ++ es2) = uncaughts es1 + uncaughts es2.
Proof. unfold uncaughts. rewrite filter_app, length_app. reflexivity. Qed.

Lemma no_prompts (es : list effect) :
  forallb no_prompt es = true -> prompts es = 0.
Proof.
  unfold prompts. induction es as [|e r IH]; [reflexivity|].
  cbn [forallb filter]. intros H. apply andb_true_iff in H.
  destruct H as [He Hr]. unfold no_prompt in He.
  apply negb_true_iff in He. rewrite He. apply IH. exact Hr.
Qed.

Lemma take_awaited (p : promise) (a : Assistant) (s : subscription)
    (rest : list (promise * subscription)) :
  take p (promises a) = Some (s, rest) ->
  length (awaited a)
  = length (awaited (forget rest a)) + (if holds_prompt s then 1 else 0).
Proof.
  unfold awaited, forget. cbn [promises].
  generalize (promises a). intros l. revert rest.
  induction l as [|[q t] r IH]; intros rest; cbn [take]; [discriminate|].
  destruct (Nat.eqb q p).
  - intros H. injection H as <- <-. cbn [filter snd]. unfold holds_prompt.
    destruct (sub_chain t); cbn [map length]; lia.
  - destruct (take p r) as [[s' r']|]; [|discriminate].
    intros H. injection H as <- <-. specialize (IH r' eq_refl).
    cbn [filter snd]. destruct (sub_chain t); cbn [map length]; lia.
Qed.

Lemma react_quiet_effects (r : reaction) (v : settled) (m : M unit) :
  react r v = Some m ->
  emits no_prompt m /\ emits (fun e => negb (is_uncaught e)) m
  /\ keeps awaited m.
Proof.
  intros R. destruct r; destruct v; try discriminate R; injection R as <-;
    (split; [emits_steps | split; [emits_steps | keeps_steps]]).
Qed.

Lemma settle_cases (p : promise) (o : outcome) (a a' : Assistant)
    (es : list effect) :
  settle p o a = Some (a', es) ->
  exists s rest,
    take p (promises a) = Some (s, rest)
    /\ length (awaited a') = length (awaited (forget rest a))
    /\ match o with
       | fulfilled _ =>
           prompts es = (if holds_prompt s then 1 else 0)
       | rejected _ =>
           prompts es = 0
           /\ (if holds_prompt s then 1 else 0) <= uncaughts es
       end.
Proof.
  unfold settle. destruct (take p (promises a)) as [[s rest]|]; [|discriminate].
  intros H. exists s, rest. split; [reflexivity|].
  destruct o as [v|e].
  - destruct (react (sub_reaction s) v) as [m|] eqn:R; [|discriminate].
    destruct (react_quiet_effects _ _ _ R) as (E1 & _ & K).
    injection H as <- <-. rewrite bind_run. cbn [state_of effects_of fst snd].
    split.
    + fold (state_of (m (forget rest a))).
      fold (state_of (continue_with (sub_chain s) (state_of (m (forget rest a))))).
      rewrite (continue_keeps awaited), K. reflexivity.
    + rewrite prompts_app. fold (effects_of (m (forget rest a))).
      rewrite (no_prompts _ (E1 (forget rest a))).
      unfold holds_prompt. destruct (sub_chain s); reflexivity.
  - injection H as <- <-. split.
    + rewrite (reject_keeps awaited). reflexivity.
    + unfold holds_prompt. destruct (sub_chain s); cbn; split; lia.
Qed.

(** ** Prompts and lines *)

Lemma step_prompts (uq : string -> url_result) (ev : event) (a a' : Assistant)
    (es : list effect) :
  step uq ev a = Some (a', es) ->
  prompts es + length (awaited a') <= lines_read [ev] + length (awaited a)
  /\ lines_read [ev] + length (awaited a)
     <= prompts es + length (awaited a') + uncaughts es.
Proof.
  destruct ev as [eng line | | c | p o]; cbn [step].
  - intros H. injection H as <- <-.
    pose proof (onLine_cases uq eng line a) as C.
    pose proof (exec_no_prompt uq eng (select line) a) as N.
    pose proof (exec_keeps_awaited uq eng (select line) a) as K.
    apply no_prompts in N.
    destruct (value_of (exec uq eng (select line) a)) as [[p|]|e] eqn:V;
      rewrite C; cbn [state_of effects_of fst snd lines_read filter is_line length].
    + destruct (exec_promise uq eng (select line) a p V) as (r & P & _).
      fold (state_of (exec uq eng (select line) a)).
      fold (state_of (attach p chain_prompt_done
                        (state_of (exec uq eng (select line) a)))).
      rewrite (awaited_attach p r _ _ P).
      fold (effects_of (exec uq eng (select line) a)). rewrite N.
      change (awaited (forget (promises a)
                         (state_of (exec uq eng (select line) a))))
        with (awaited a).
      cbn [length]. lia.
    + fold (state_of (exec uq eng (select line) a)).
      fold (effects_of (exec uq eng (select line) a)).
      rewrite prompts_app, uncaughts_app, N, K. cbn. lia.
    + fold (state_of (exec uq eng (select line) a)).
      fold (effects_of (exec uq eng (select line) a)).
      rewrite prompts_app, uncaughts_app, N, K. cbn. lia.
  - destruct (rl_closed a); [discriminate|]. intros H. injection H as <- <-.
    change (awaited (state_of (_quit a))) with (awaited a).
    unfold prompts, uncaughts, lines_read.
    cbn [effects_of snd filter is_prompt is_uncaught is_line length]. lia.
  - intros H. injection H as <- <-.
    rewrite (keeps_delegate awaited c a).
    assert (prompts (effects_of (CommandLineDelegate c a)) = 0) as ->
      by (destruct c; reflexivity).
    change (lines_read [ev_render c]) with 0. lia.
  - intros H. destruct (settle_cases p o a a' es H) as (s & rest & T & L & C).
    rewrite (take_awaited p a s rest T), L.
    cbn [lines_read filter is_line length].
    destruct o as [v|e].
    + rewrite C. lia.
    + destruct C as [C1 C2]. rewrite C1. lia.
Qed.

(** X1: in every run of the loop, the prompts drawn and the results still
    awaited never exceed the lines read and the results awaited at the
    start; and every line read has been answered by a prompt, is still
    awaited, or has ended in an error thrown out of its promise chain. *)
Theorem prompts_match_lines (uq : string -> url_result) (evs : list event) :
  forall (a a' : Assistant) (es : list effect),
    run uq evs a = Some (a', es) ->
    prompts es + length (awaited a') <= lines_read evs + length (awaited a)
    /\ lines_read evs + length (awaited a)
       <= prompts es + length (awaited a') + uncaughts es.
Proof.
  induction evs as [|ev rest IH]; intros a a' es.
  - cbn [run]. intros H. injection H as <- <-. cbn. lia.
  - intros H.
    destruct (run_cons uq ev rest a a' es H) as (a1 & e1 & e2 & S & R & ->).
    destruct (step_prompts uq ev a a1 e1 S) as [S1 S2].
    destruct (IH a1 a' e2 R) as [R1 R2].
    rewrite prompts_app, uncaughts_app.
    assert (lines_read (ev :: rest) = lines_read [ev] + lines_read rest) as ->.
    { unfold lines_read. cbn [filter]. destruct (is_line ev); reflexivity. }
    lia.
Qed.

Lemma prompts_match_lines_witness :
  prompts [console_log "- a1 App: an app"; rl_prompt;
           invoke 0 (messaging_getAccountForIdentity (js_string "x"))]
  + length (awaited (subscribed on_account chain_prompt_done new_Assistant))
  <= lines_read [ev_line sample_engine "\a list";
                 ev_line sample_engine "\m identity x"]
     + length (awaited new_Assistant)
  /\ lines_read [ev_line sample_engine "\a list";
                 ev_line sample_engine "\m identity x"]
     + length (awaited new_Assistant)
     <= prompts [console_log "- a1 App: an app"; rl_prompt;
                 invoke 0 (messaging_getAccountForIdentity (js_string "x"))]
        + length (awaited (subscribed on_account chain_prompt_done
                             new_Assistant))
        + uncaughts [console_log "- a1 App: an app"; rl_prompt;
                     invoke 0 (messaging_getAccountForIdentity
                                 (js_string "x"))].
Proof.
  apply (prompts_match_lines no_query
           [ev_line sample_engine "\a list";
            ev_line sample_engine "\m identity x"] new_Assistant).
  reflexivity.
Defined.

(** X2: whatever the line and the state, [_onLine] draws at most one
    prompt, and when it draws one the prompt is the last thing it does:
    everything the handler wrote or called comes before it. *)
Theorem prompt_comes_last (uq : string -> url_result) (eng : Engine)
    (line : string) (a : Assistant) :
  exists before,
    forallb no_prompt before = true
    /\ (effects_of (_onLine uq eng line a) = (before ++ [rl_prompt])%list
        \/ (effects_of (_onLine uq eng line a) = before
            /\ exists p, value_of (dispatch uq eng line a) = returns (Some p))
        \/ exists e,
             effects_of (_onLine uq eng line a)
             = (before ++ [uncaught e])%list
             /\ value_of (dispatch uq eng line a) = throws e).
Proof.
  exists (effects_of (exec uq eng (select line) a)).
  split; [apply exec_no_prompt|].
  pose proof (onLine_cases uq eng line a) as C. rewrite dispatch_select.
  destruct (value_of (exec uq eng (select line) a)) as [[p|]|e];
    rewrite C; cbn [effects_of snd].
  - right. left. split; [reflexivity | exists p; reflexivity].
  - left. reflexivity.
  - right. right. exists e. split; reflexivity.
Qed.

(** ** Shutdown *)















(** X4: [\q], whatever follows it on the line, and the interrupt do the
    same: print [Bye], close the read line interface, call
    [engine.close()]; the line also calls the prompt afterwards.  When the
    promise of [engine.close()] is fulfilled [platform.exit()] is called;
    when it is rejected the error is thrown again and
    [platform.exit()] is not called. *)
Theorem quit_sequence (uq : string -> url_result) (eng : Engine) (rest : string)
    (a : Assistant) (v : settled) (e : error) :
  _onLine uq eng ("\q" ++ rest) a
  = (tt, state_of (_quit a),
     [console_log ("Bye" ++ newline); rl_close;
      invoke (next_promise a) engine_close; rl_prompt])
  /\ _quit a
     = (tt, state_of (_quit a),
        [console_log ("Bye" ++ newline); rl_close;
         invoke (next_promise a) engine_close])
  /\ rl_closed (state_of (_quit a)) = true
  /\ oauth_of (state_of (_quit a)) = oauth_of a
  /\ settle (next_promise a) (fulfilled v) (state_of (_quit a))
     = Some (forget (promises a) (state_of (_quit a)), [platform_exit])
  /\ settle (next_promise a) (rejected e) (state_of (_quit a))
     = Some (forget (promises a) (state_of (_quit a)), [uncaught e]).
Proof.
  split; [reflexivity|]. split; [reflexivity|]. split; [reflexivity|].
  split; [reflexivity|].
  split; unfold settle; cbn [_quit state_of]; cbn; rewrite Nat.eqb_refl;
    reflexivity.
Qed.

(** ** The command handlers *)

(** X5: the listing commands only read and print: one line for each app,
    device, permission or identity the engine gives, in its order; the
    assistant is unchanged and no other call is made; the second argument
    is not looked at. *)
Theorem listing_only_prints (uq : string -> url_result) (eng : Engine)
    (param : jsval) (a : Assistant) :
  _runAppCommand eng (js_string "list") param a
  = (returns None, a,
     map (fun app => console_log (app_line app)) (getAllApps eng))
  /\ _runDeviceCommand uq eng (js_string "list") param a
     = (returns None, a,
        map (fun dev => console_log (device_line dev)) (getAllDevices eng))
  /\ _runPermissionCommand eng (js_string "list") param a
     = (returns None, a,
        map (fun p => console_log (permission_line p))
          (getAllPermissions eng))
  /\ _runMessagingCommand eng (js_string "self") param a
     = (returns None, a, map console_log (getIdentities eng))
  /\ _onLine uq eng "\a list" a
     = (tt, a, (map (fun app => console_log (app_line app)) (getAllApps eng)
                ++ [rl_prompt])%list)
  /\ _onLine uq eng "\d list" a
     = (tt, a, (map (fun dev => console_log (device_line dev))
                  (getAllDevices eng) ++ [rl_prompt])%list)
  /\ _onLine uq eng "\p list" a
     = (tt, a, (map (fun p => console_log (permission_line p))
                  (getAllPermissions eng) ++ [rl_prompt])%list)
  /\ _onLine uq eng "\m self" a
     = (tt, a, (map console_log (getIdentities eng) ++ [rl_prompt])%list).
Proof.
  assert (forall Y (l : list Y) (f : Y -> string) (s : Assistant),
            (for_each l (fun y => log (f y)) ;; return_undefined) s
            = (returns None, s, map (fun y => console_log (f y)) l)) as L.
  { intros Y l f s. unfold bind. rewrite for_each_log.
    cbn. rewrite app_nil_r. reflexivity. }
  assert (forall Y (l : list Y) (f : Y -> string) (s : Assistant),
            (c <- (for_each l (fun y => log (f y)) ;; return_undefined) ;;
             match c with
             | returns None => emit rl_prompt
             | returns (Some p) => attach p chain_prompt_done
             | throws e => emit (uncaught e)
             end) s
            = (tt, s, (map (fun y => console_log (f y)) l ++ [rl_prompt])%list))
    as L'.
  { intros Y l f s. unfold bind at 1. rewrite L. reflexivity. }
  repeat split.
  - apply (L App (getAllApps eng) app_line).
  - apply (L Device (getAllDevices eng) device_line).
  - apply (L Permission (getAllPermissions eng) permission_line).
  - apply (L string (getIdentities eng) (fun s => s)).
  - rewrite onLine_select. apply (L' App (getAllApps eng) app_line).
  - rewrite onLine_select. apply (L' Device (getAllDevices eng) device_line).
  - rewrite onLine_select.
    apply (L' Permission (getAllPermissions eng) permission_line).
  - rewrite onLine_select. apply (L' string (getIdentities eng) (fun s => s)).
Qed.

(** X6: a sub-command the handler does not know, or none at all, is
    dropped in silence: the handler does nothing, writes nothing and
    returns no promise, so the line only draws the prompt. *)
Theorem unknown_subcommand_is_silent (uq : string -> url_result) (eng : Engine)
    (cmd param : jsval) (a : Assistant) :
  (known app_commands cmd = false ->
   _runAppCommand eng cmd param a = (returns None, a, []))
  /\ (known device_commands cmd = false ->
      _runDeviceCommand uq eng cmd param a = (returns None, a, []))
  /\ (known messaging_commands cmd = false ->
      _runMessagingCommand eng cmd param a = (returns None, a, []))
  /\ (known permission_commands cmd = false ->
      _runPermissionCommand eng cmd param a = (returns None, a, []))
  /\ (forall line args,
        (select line = br_app args
         /\ known app_commands (arg 0 args) = false)
        \/ (select line = br_device args
            /\ known device_commands (arg 0 args) = false)
        \/ (select line = br_messaging args
            /\ known messaging_commands (arg 0 args) = false)
        \/ (select line = br_permission args
            /\ known permission_commands (arg 0 args) = false) ->
        _onLine uq eng line a = (tt, a, [rl_prompt])).
Proof.
  assert (forall c, known app_commands c = false ->
            _runAppCommand eng c param a = (returns None, a, [])) as A.
  { intros c H. unfold known, app_commands in H. cbn [existsb] in H.
    repeat (apply orb_false_iff in H; destruct H as [? H]).
    unfold _runAppCommand.
    repeat match goal with E : is_str c _ = false |- _ => rewrite E; clear E end.
    reflexivity. }
  assert (forall c p, known device_commands c = false ->
            _runDeviceCommand uq eng c p a = (returns None, a, [])) as D.
  { intros c p H. unfold known, device_commands in H. cbn [existsb] in H.
    repeat (apply orb_false_iff in H; destruct H as [? H]).
    unfold _runDeviceCommand.
    repeat match goal with E : is_str c _ = false |- _ => rewrite E; clear E end.
    reflexivity. }
  assert (forall c p, known messaging_commands c = false ->
            _runMessagingCommand eng c p a = (returns None, a, [])) as G.
  { intros c p H. unfold known, messaging_commands in H. cbn [existsb] in H.
    repeat (apply orb_false_iff in H; destruct H as [? H]).
    unfold _runMessagingCommand.
    repeat match goal with E : is_str c _ = false |- _ => rewrite E; clear E end.
    reflexivity. }
  assert (forall c p, known permission_commands c = false ->
            _runPermissionCommand eng c p a = (returns None, a, [])) as P.
  { intros c p H. unfold known, permission_commands in H. cbn [existsb] in H.
    repeat (apply orb_false_iff in H; destruct H as [? H]).
    unfold _runPermissionCommand.
    repeat match goal with E : is_str c _ = false |- _ => rewrite E; clear E end.
    reflexivity. }
  split; [apply A|]. split; [apply D|]. split; [apply G|]. split; [apply P|].
  intros line args [[S K] | [[S K] | [[S K] | [S K]]]];
    rewrite onLine_select, S; unfold bind; cbn [exec].
  - assert (forall p, _runAppCommand eng (arg 0 args) p a
                      = (returns None, a, [])) as E.
    { intros p. unfold known, app_commands in K. cbn [existsb] in K.
      repeat (apply orb_false_iff in K; destruct K as [? K]).
      unfold _runAppCommand.
      repeat match goal with
             | E : is_str _ _ = false |- _ => rewrite E; clear E
             end.
      reflexivity. }
    rewrite E. reflexivity.
  - rewrite (D _ _ K). reflexivity.
  - rewrite (G _ _ K). reflexivity.
  - rewrite (P _ _ K). reflexivity.
Qed.

Lemma unknown_subcommand_is_silent_witness :
  _runAppCommand sample_engine (js_string "start") js_undefined new_Assistant
  = (returns None, new_Assistant, [])
  /\ _runDeviceCommand no_query sample_engine js_undefined js_undefined
       new_Assistant
     = (returns None, new_Assistant, [])
  /\ _runMessagingCommand sample_engine (js_string "") js_undefined
       new_Assistant
     = (returns None, new_Assistant, [])
  /\ _runPermissionCommand sample_engine (js_string "grant") js_undefined
       new_Assistant
     = (returns None, new_Assistant, [])
  /\ _onLine no_query sample_engine "\a" new_Assistant
     = (tt, new_Assistant, [rl_prompt])
  /\ _onLine no_query sample_engine "\d Start-OAuth x" new_Assistant
     = (tt, new_Assistant, [rl_prompt]).
Proof.
  split; [|split; [|split; [|split; [|split]]]].
  - apply (proj1 (unknown_subcommand_is_silent no_query sample_engine
                    (js_string "start") js_undefined new_Assistant)).
    reflexivity.
  - apply (proj1 (proj2 (unknown_subcommand_is_silent no_query sample_engine
                           js_undefined js_undefined new_Assistant))).
    reflexivity.
  - apply (proj1 (proj2 (proj2 (unknown_subcommand_is_silent no_query
                                  sample_engine (js_string "") js_undefined
                                  new_Assistant)))).
    reflexivity.
  - apply (proj1 (proj2 (proj2 (proj2 (unknown_subcommand_is_silent no_query
                                         sample_engine (js_string "grant")
                                         js_undefined new_Assistant))))).
    reflexivity.
  - apply (proj2 (proj2 (proj2 (proj2 (unknown_subcommand_is_silent no_query
                                         sample_engine js_undefined
                                         js_undefined new_Assistant))))
             "\a" [""]).
    left. split; reflexivity.
  - apply (proj2 (proj2 (proj2 (proj2 (unknown_subcommand_is_silent no_query
                                         sample_engine js_undefined
                                         js_undefined new_Assistant))))
             "\d Start-OAuth x" ["Start-OAuth"; "x"]).
    right. left. split; reflexivity.
Defined.

(** X7: [revoke] looks nothing up: whatever the permissions of the engine
    and whatever the argument, also a missing one, [removePermission] is
    called with it once and nothing is written; on the line
    [\p revoke <id>], with a one-word id, the prompt follows. *)
Theorem revoke_is_unconditional (uq : string -> url_result) (eng : Engine)
    (param : jsval) (id : string) (a : Assistant) :
  _runPermissionCommand eng (js_string "revoke") param a
  = (returns None, a, [permissions_removePermission param])
  /\ (no_space id = true ->
      _onLine uq eng ("\p revoke " ++ id) a
      = (tt, a, [permissions_removePermission (js_string id); rl_prompt])).
Proof.
  split; [reflexivity|]. intros H. rewrite onLine_select.
  change (select ("\p revoke " ++ id))
    with (br_permission ("revoke" :: split_space id)).
  rewrite (split_space_word id H). reflexivity.
Qed.

Lemma revoke_is_unconditional_witness :
  _onLine no_query sample_engine "\p revoke p1" new_Assistant
  = (tt, new_Assistant,
     [permissions_removePermission (js_string "p1"); rl_prompt]).
Proof.
  apply (proj2 (revoke_is_unconditional no_query sample_engine js_undefined
                  "p1" new_Assistant)).
  reflexivity.
Defined.

(** X8: an argument that is missing reaches the collaborator as
    [undefined].  [complete-oauth] without a url fails in [Url.parse]
    before anything is called: the error is thrown again, the factory is
    not called, no prompt is drawn and the assistant is unchanged.
    [start-oauth] without a kind stores [undefined] as the kind and calls
    [runOAuth2(undefined, null)]; [identity] and [search] without an
    argument call the messaging manager with [undefined]; [stop] without
    an id asks for the app [undefined]. *)
Theorem missing_argument_is_undefined (uq : string -> url_result) (eng : Engine)
    (cmd param : jsval) (a : Assistant) :
  (is_str cmd "complete-oauth" || is_str cmd "complete-oauth2" = true ->
   not_a_string param = true ->
   _runDeviceCommand uq eng cmd param a = (throws "TypeError", a, []))
  /\ _onLine uq eng "\d complete-oauth" a = (tt, a, [uncaught "TypeError"])
  /\ _onLine uq eng "\d complete-oauth2" a = (tt, a, [uncaught "TypeError"])
  /\ oauth_of (state_of (_onLine uq eng "\d start-oauth" a))
     = (js_undefined, _oauthSession a)
  /\ effects_of (_onLine uq eng "\d start-oauth" a)
     = [invoke (next_promise a) (factory_runOAuth2 js_undefined None)]
  /\ effects_of (_onLine uq eng "\m identity" a)
     = [invoke (next_promise a)
          (messaging_getAccountForIdentity js_undefined)]
  /\ effects_of (_onLine uq eng "\m search" a)
     = [invoke (next_promise a) (messaging_searchAccountByName js_undefined)]
  /\ _onLine uq eng "\a stop" a
     = match getApp eng js_undefined with
       | None => (tt, a, [console_log "No app with ID undefined"; rl_prompt])
       | Some app => (tt, a, [apps_removeApp app; rl_prompt])
       end.
Proof.
  split; [|repeat split].
  - intros C0 N. unfold _runDeviceCommand.
    pose proof C0 as C. apply orb_true_iff in C.
    assert (is_str cmd "list" = false
            /\ is_str cmd "start-oauth" || is_str cmd "start-oauth2" = false)
      as [E1 E2].
    { destruct cmd as [| |s]; try (destruct C; discriminate).
      cbn [is_str] in *.
      destruct C as [C | C]; apply String.eqb_eq in C; subst s;
        split; reflexivity. }
    rewrite E1, E2, C0.
    destruct param; try discriminate N; reflexivity.
  - rewrite onLine_select. unfold bind. cbn.
    destruct (getApp eng js_undefined); reflexivity.
Qed.

Lemma missing_argument_is_undefined_witness :
  _runDeviceCommand no_query sample_engine (js_string "complete-oauth2")
    js_undefined new_Assistant
  = (throws "TypeError", new_Assistant, []).
Proof.
  apply (proj1 (missing_argument_is_undefined no_query sample_engine
                  (js_string "complete-oauth2") js_undefined new_Assistant));
    reflexivity.
Defined.

(** X9: [\r] and [\t] pass on what follows the third character of the
    line, as it is and unchecked, once; the third character is skipped
    whatever it is, and a line of two characters passes the empty text.
    The promise of the call is awaited and nothing else happens. *)
Theorem raw_and_thingtalk_forward (uq : string -> url_result) (eng : Engine)
    (c : ascii) (text : string) (a : Assistant) :
  _onLine uq eng ("\r" ++ String c text) a
  = (tt, subscribed no_reaction chain_prompt_done a,
     [invoke (next_promise a) (conversation_handleParsedCommand text)])
  /\ _onLine uq eng ("\t" ++ String c text) a
     = (tt, subscribed no_reaction chain_prompt_done a,
        [invoke (next_promise a) (conversation_handleThingTalk text)])
  /\ _onLine uq eng "\r" a
     = (tt, subscribed no_reaction chain_prompt_done a,
        [invoke (next_promise a) (conversation_handleParsedCommand "")])
  /\ _onLine uq eng "\t" a
     = (tt, subscribed no_reaction chain_prompt_done a,
        [invoke (next_promise a) (conversation_handleThingTalk "")]).
Proof.
  repeat split; rewrite onLine_select; unfold bind, subscribed; cbn;
    rewrite Nat.eqb_refl; reflexivity.
Qed.

(** ** Pairings that overlap or repeat *)

(** X10: the kind and the session are stored apart.  When a second
    [start-oauth] comes before the first is fulfilled, the fulfilment of
    the first stores its session beside the kind of the second, and
    [complete-oauth], for a url of which [Url.parse] gives the query, then
    calls [runOAuth2] with the second kind and the first session. *)
Theorem overlapping_pairings_mix (uq : string -> url_result) (eng : Engine)
    (k1 k2 u redirect : string) (s1 : Session) (q : Query) (a : Assistant) :
  no_space k1 = true -> no_space k2 = true -> no_space u = true ->
  uq u = url_query q ->
  exists a3,
    run uq [ev_line eng ("\d start-oauth " ++ k1);
            ev_line eng ("\d start-oauth " ++ k2);
            ev_settle (next_promise a) (fulfilled (val_oauth redirect s1))] a
    = Some (a3,
            [invoke (next_promise a) (factory_runOAuth2 (js_string k1) None);
             invoke (S (next_promise a))
               (factory_runOAuth2 (js_string k2) None);
             console_log redirect; rl_prompt])
    /\ oauth_of a3 = (js_string k2, s1)
    /\ effects_of (_onLine uq eng ("\d complete-oauth " ++ u) a3)
       = [invoke (S (S (next_promise a)))
            (factory_runOAuth2 (js_string k2)
               (Some (oauth_request u q s1)))].
Proof.
  intros H1 H2 Hu Hq. eexists. split; [|split].
  - cbn [run step]. rewrite (start_oauth_line uq eng k1 a H1).
    cbn [state_of effects_of fst snd existsb is_uncaught orb].
    rewrite (start_oauth_line uq eng k2 _ H2).
    cbn [state_of effects_of fst snd next_promise promises _oauthSession
         rl_closed existsb is_uncaught orb].
    unfold settle. cbn [promises take].
    assert (Nat.eqb (S (next_promise a)) (next_promise a) = false) as ->
      by (apply Nat.eqb_neq; lia).
    rewrite Nat.eqb_refl. cbn. reflexivity.
  - reflexivity.
  - match goal with
    | |- effects_of (_onLine uq eng _ ?st) = _ =>
        destruct (complete_oauth_line uq eng u st) as (w & more & E & L)
    end.
    rewrite (split_space_word u Hu) in E. injection E as <- _.
    rewrite L, Hq. reflexivity.
Qed.

Lemma overlapping_pairings_mix_witness :
  exists a3,
    run no_query [ev_line sample_engine "\d start-oauth twitter";
                  ev_line sample_engine "\d start-oauth github";
                  ev_settle 0 (fulfilled (val_oauth "http://t" [("t", "1")]))]
      new_Assistant
    = Some (a3,
            [invoke 0 (factory_runOAuth2 (js_string "twitter") None);
             invoke 1 (factory_runOAuth2 (js_string "github") None);
             console_log "http://t"; rl_prompt])
    /\ oauth_of a3 = (js_string "github", [("t", "1")])
    /\ effects_of (_onLine no_query sample_engine
                     "\d complete-oauth http://cb" a3)
       = [invoke 2
            (factory_runOAuth2 (js_string "github")
               (Some (oauth_request "http://cb" [] [("t", "1")])))].
Proof.
  apply (overlapping_pairings_mix no_query sample_engine "twitter" "github"
           "http://cb" "http://t" [("t", "1")] [] new_Assistant); reflexivity.
Defined.

(** X11: [complete-oauth] never clears the pairing.  For urls of which
    [Url.parse] gives the query: when the factory fulfils the promise,
    the prompt is drawn and the assistant is as it was before the line,
    but for the number of the next promise; the stored kind and session
    stay, and a second [complete-oauth] sends them again. *)
Theorem complete_oauth_keeps_pairing (uq : string -> url_result)
    (eng : Engine) (u1 u2 : string) (q1 q2 : Query) (v : settled)
    (a : Assistant) :
  no_space u1 = true -> no_space u2 = true ->
  uq u1 = url_query q1 -> uq u2 = url_query q2 ->
  run uq [ev_line eng ("\d complete-oauth " ++ u1);
          ev_settle (next_promise a) (fulfilled v)] a
  = Some (after_promise a,
          [invoke (next_promise a)
             (factory_runOAuth2 (_oauthKind a)
                (Some (oauth_request u1 q1 (_oauthSession a))));
           rl_prompt])
  /\ run uq [ev_line eng ("\d complete-oauth " ++ u1);
             ev_settle (next_promise a) (fulfilled v);
             ev_line eng ("\d complete-oauth " ++ u2)] a
     = Some (subscribed no_reaction chain_prompt_done (after_promise a),
             [invoke (next_promise a)
                (factory_runOAuth2 (_oauthKind a)
                   (Some (oauth_request u1 q1 (_oauthSession a))));
              rl_prompt;
              invoke (S (next_promise a))
                (factory_runOAuth2 (_oauthKind a)
                   (Some (oauth_request u2 q2 (_oauthSession a))))]).
Proof.
  intros H1 H2 Q1 Q2.
  destruct (complete_oauth_line uq eng u1 a) as (w1 & m1 & E1 & L1).
  rewrite (split_space_word u1 H1) in E1. injection E1 as <- _.
  destruct (complete_oauth_line uq eng u2 (after_promise a))
    as (w2 & m2 & E2 & L2).
  rewrite (split_space_word u2 H2) in E2. injection E2 as <- _.
  rewrite Q1 in L1. rewrite Q2 in L2.
  split.
  - cbn [run step]. rewrite L1.
    cbn [state_of effects_of fst snd existsb is_uncaught orb].
    unfold settle, subscribed. cbn [promises]. rewrite settle_head.
    reflexivity.
  - cbn [run step]. rewrite L1.
    cbn [state_of effects_of fst snd existsb is_uncaught orb].
    unfold settle, subscribed at 1. cbn [promises]. rewrite settle_head.
    change (forget (promises a) (subscribed no_reaction chain_prompt_done a))
      with (after_promise a).
    cbn [sub_reaction sub_chain react].
    change (state_of ((ret tt ;; continue_with chain_prompt_done)
                        (after_promise a)))
      with (after_promise a).
    change (effects_of ((ret tt ;; continue_with chain_prompt_done)
                          (after_promise a)))
      with [rl_prompt].
    cbn [existsb is_uncaught orb].
    rewrite L2. reflexivity.
Qed.

Lemma complete_oauth_keeps_pairing_witness :
  run no_query [ev_line sample_engine "\d complete-oauth http://cb";
                ev_settle 0 (fulfilled val_undefined)] new_Assistant
  = Some (after_promise new_Assistant,
          [invoke 0
             (factory_runOAuth2 js_null
                (Some (oauth_request "http://cb" [] [])));
           rl_prompt])
  /\ run no_query [ev_line sample_engine "\d complete-oauth http://cb";
                   ev_settle 0 (fulfilled val_undefined);
                   ev_line sample_engine "\d complete-oauth http://cb2"]
       new_Assistant
     = Some (subscribed no_reaction chain_prompt_done
               (after_promise new_Assistant),
             [invoke 0
                (factory_runOAuth2 js_null
                   (Some (oauth_request "http://cb" [] [])));
              rl_prompt;
              invoke 1
                (factory_runOAuth2 js_null
                   (Some (oauth_request "http://cb2" [] [])))]).
Proof.
  apply (complete_oauth_keeps_pairing no_query sample_engine "http://cb"
           "http://cb2" [] [] val_undefined new_Assistant); reflexivity.
Defined.

(** ** Messaging *)

Lemma logs_not_uncaught {A : Type} (f : A -> string) (l : list A)
    (rest : list effect) :
  existsb is_uncaught (map (fun y => console_log (f y)) l ++ rest)%list
  = existsb is_uncaught rest.
Proof.
  induction l as [|y l IH]; [reflexivity | exact IH].
Qed.

(** X12: [\m identity <id>] asks the messaging manager for the account
    and, when the answer comes, prints it and draws the prompt;
    [\m search <name>] prints one line [name: account] for each account of
    the answer, in its order, then the prompt: an empty answer gives the
    prompt alone.  Afterwards the assistant is as before the line, but for
    the number of the next promise. *)
Theorem messaging_lookup_prints_answer (uq : string -> url_result) (eng : Engine)
    (word account : string) (accounts : list Account) (a : Assistant) :
  no_space word = true -> rl_closed a = false ->
  run uq [ev_line eng ("\m identity " ++ word);
          ev_settle (next_promise a) (fulfilled (val_account account))] a
  = Some (after_promise a,
          [invoke (next_promise a)
             (messaging_getAccountForIdentity (js_string word));
           console_log account; rl_prompt])
  /\ run uq [ev_line eng ("\m search " ++ word);
             ev_settle (next_promise a) (fulfilled (val_accounts accounts))] a
     = Some (after_promise a,
             (invoke (next_promise a)
                (messaging_searchAccountByName (js_string word))
              :: map (fun acc => console_log (acc_name acc ++ ": "
                                              ++ acc_account acc)) accounts
              ++ [rl_prompt])%list).
Proof.
  intros H Ho.
  assert (_onLine uq eng ("\m identity " ++ word) a
          = (tt, subscribed on_account chain_prompt_done a,
             [invoke (next_promise a)
                (messaging_getAccountForIdentity (js_string word))])) as L1.
  { rewrite onLine_select.
    change (select ("\m identity " ++ word))
      with (br_messaging ("identity" :: split_space word)).
    rewrite (split_space_word word H).
    unfold bind, subscribed. cbn. rewrite Nat.eqb_refl. reflexivity. }
  assert (_onLine uq eng ("\m search " ++ word) a
          = (tt, subscribed on_accounts chain_prompt_done a,
             [invoke (next_promise a)
                (messaging_searchAccountByName (js_string word))])) as L2.
  { rewrite onLine_select.
    change (select ("\m search " ++ word))
      with (br_messaging ("search" :: split_space word)).
    rewrite (split_space_word word H).
    unfold bind, subscribed. cbn. rewrite Nat.eqb_refl. reflexivity. }
  split; cbn [run step].
  - rewrite L1. cbn [state_of effects_of fst snd existsb is_uncaught orb].
    unfold settle, subscribed. cbn [promises]. rewrite settle_head.
    reflexivity.
  - rewrite L2. cbn [state_of effects_of fst snd existsb is_uncaught orb].
    unfold settle, subscribed. cbn [promises]. rewrite settle_head.
    cbn [sub_reaction sub_chain react]. unfold bind.
    rewrite for_each_log. cbn. rewrite app_nil_r, logs_not_uncaught.
    reflexivity.
Qed.

Lemma messaging_lookup_prints_answer_witness :
  run no_query [ev_line sample_engine "\m identity phone:+1555";
                ev_settle 0 (fulfilled (val_account "acct1"))] new_Assistant
  = Some (after_promise new_Assistant,
          [invoke 0 (messaging_getAccountForIdentity
                       (js_string "phone:+1555"));
           console_log "acct1"; rl_prompt])
  /\ run no_query [ev_line sample_engine "\m search phone:+1555";
                   ev_settle 0 (fulfilled (val_accounts []))] new_Assistant
     = Some (after_promise new_Assistant,
             [invoke 0 (messaging_searchAccountByName
                          (js_string "phone:+1555"));
              rl_prompt]).
Proof.
  apply (messaging_lookup_prints_answer no_query sample_engine "phone:+1555"
           "acct1" [] new_Assistant); reflexivity.
Defined.

(** ** The delegate *)

(** X13: every method of the delegate writes one line, which begins with
    [>> ], and nothing else: the assistant is unchanged, no prompt is
    drawn and nothing is called, whether the read line interface is open
    or closed.  [sendChoice] shows the index and the title only. *)
Theorem delegate_writes_one_line (uq : string -> url_result) (c : delegate_call)
    (idx : number) (what what' title text text' : string) (a : Assistant) :
  CommandLineDelegate c a = (tt, a, [console_log (">> " ++ shown c)])
  /\ step uq (ev_render c) a = Some (a, [console_log (">> " ++ shown c)])
  /\ CommandLineDelegate (sendChoice idx what title text)
     = CommandLineDelegate (sendChoice idx what' title text').
Proof.
  split; [destruct c; reflexivity|].
  split; [destruct c; reflexivity | reflexivity].
Qed.

(** X14: [sendRDL] shows the callback of the card when it is a string that
    is not empty, and the web callback otherwise, whatever that is: a card
    with neither shows [undefined]. *)
Theorem rdl_falls_back_to_web_callback (rdl : RDL) (a : Assistant) :
  effects_of (CommandLineDelegate (sendRDL rdl) a)
  = [console_log
       (">> rdl: " ++ displayTitle rdl ++ " "
        ++ match callback rdl with
           | js_string (String c r) => String c r
           | _ => to_string (webCallback rdl)
           end)].
Proof.
  destruct rdl as [t cb wcb]. destruct cb as [| |[|c r]]; reflexivity.
Qed.

(** ** Arguments of a command *)

Lemma join_split (s : string) : join_space (split_space s) = s.
Proof.
  induction s as [|c r IH]; [reflexivity|].
  cbn [split_space]. destruct (Ascii.eqb c space) eqn:E.
  - apply Ascii.eqb_eq in E. subst c.
    destruct (split_space_first r) as (h & t & S & _).
    rewrite S in *. cbn [join_space]. cbn [join_space] in IH.
    rewrite IH. reflexivity.
  - destruct (split_space_first r) as (h & t & S & _). rewrite S in *.
    cbn [join_space] in *. destruct t as [|h' t'].
    + rewrite IH. reflexivity.
    + rewrite <- IH. reflexivity.
Qed.

Lemma split_words (s : string) :
  Forall (fun w => no_space w = true) (split_space s)
  /\ length (split_space s) = S (count_spaces s).
Proof.
  induction s as [|c r [IH1 IH2]].
  - split; [repeat constructor | reflexivity].
  - cbn [split_space count_spaces]. destruct (Ascii.eqb c space) eqn:E.
    + split; [constructor; [reflexivity | exact IH1] | cbn; lia].
    + destruct (split_space r) as [|h t]; [discriminate IH2|].
      inversion IH1 as [|? ? Hh Ht]; subst.
      split; [|cbn in *; lia].
      constructor; [|exact Ht]. cbn [no_space]. rewrite E, Hh. reflexivity.
Qed.

Lemma arguments_split (line : string) (args : list string) :
  arguments line = Some args -> args = split_space (substr 3 line).
Proof.
  unfold arguments, select.
  repeat match goal with
         | |- context [if ?c then _ else _] => destruct c
         end; intros H; try discriminate H; injection H as <-; reflexivity.
Qed.

(** X15: the arguments of a command are the text after the third
    character of the line, cut at every space: no argument contains a
    space, there is one argument more than there are spaces (so two spaces
    in a row give an empty argument, and there is always a first one), and
    the arguments joined by single spaces are that text again. *)
Theorem arguments_are_the_words (line : string) (args : list string) :
  arguments line = Some args ->
  join_space args = substr 3 line
  /\ Forall (fun w => no_space w = true) args
  /\ length args = S (count_spaces (substr 3 line)).
Proof.
  intros H. apply arguments_split in H. subst args.
  split; [apply join_split | apply split_words].
Qed.

Lemma arguments_are_the_words_witness :
  join_space ["stop"; ""; "a1"] = substr 3 "\a stop  a1"
  /\ Forall (fun w => no_space w = true) ["stop"; ""; "a1"]
  /\ length ["stop"; ""; "a1"] = S (count_spaces (substr 3 "\a stop  a1")).
Proof.
  apply (arguments_are_the_words "\a stop  a1" ["stop"; ""; "a1"]).
  reflexivity.
Defined.

(** ** Choices *)

Lemma stringify_choice_null (v : number) :
  match v with finite _ _ => False | _ => True end ->
  JSON_stringify (choice_answer v) = spec_choice_null.
Proof. destruct v; intros H; [reflexivity | reflexivity | contradiction H]. Qed.

Lemma parseInt_no_number (s : string) :
  no_number s = true -> parseInt s = NaN.
Proof.
  unfold no_number, parseInt. destruct (trim_start s) as [|c r];
    [reflexivity|].
  destruct c as [[] [] [] [] [] [] [] []]; try discriminate; reflexivity.
Qed.

(** X16: when what follows [\c] and one more character does not begin,
    after white space, with a sign or a digit (so also when nothing
    follows), the choice sent has the value [null]: the line is passed on
    all the same, once, and its promise is awaited. *)
Theorem choice_without_number_is_null (uq : string -> url_result) (eng : Engine)
    (c : ascii) (text : string) (a : Assistant) :
  no_number text = true ->
  _onLine uq eng ("\c" ++ String c text) a
  = (tt, subscribed no_reaction chain_prompt_done a,
     [invoke (next_promise a)
        (conversation_handleParsedCommand spec_choice_null)])
  /\ _onLine uq eng "\c" a
     = (tt, subscribed no_reaction chain_prompt_done a,
        [invoke (next_promise a)
           (conversation_handleParsedCommand spec_choice_null)]).
Proof.
  intros H. split.
  - rewrite onLine_select.
    change (select ("\c" ++ String c text)) with (br_choice text).
    cbn [exec]. rewrite (parseInt_no_number text H).
    unfold bind, subscribed. cbn. rewrite Nat.eqb_refl. reflexivity.
  - rewrite onLine_select.
    unfold bind, subscribed. cbn. rewrite Nat.eqb_refl. reflexivity.
Qed.

Lemma choice_without_number_is_null_witness :
  _onLine no_query sample_engine "\c  yes" new_Assistant
  = (tt, subscribed no_reaction chain_prompt_done new_Assistant,
     [invoke 0 (conversation_handleParsedCommand spec_choice_null)]).
Proof.
  apply (proj1 (choice_without_number_is_null no_query sample_engine " "
                  " yes" new_Assistant eq_refl)).
Defined.

Lemma parse_digits_stop (s : string) (c : ascii) (r : string)
    (acc : option Z) :
  all_digits s = true -> is_digit c = false ->
  parse_digits 10 (s ++ String c r) acc = parse_digits 10 s acc.
Proof.
  revert acc. induction s as [|d s IH]; intros acc A N.
  - cbn [append parse_digits]. unfold is_digit in N.
    destruct (digit_value 10 c); [discriminate N | reflexivity].
  - cbn [all_digits] in A. apply andb_true_iff in A. destruct A as [Hd Hs].
    cbn [append parse_digits]. unfold is_digit in Hd.
    destruct (digit_value 10 d); [|discriminate Hd].
    apply IH; assumption.
Qed.

Lemma read_radix_stop (s : string) (c : ascii) (r : string) :
  all_digits s = true -> s <> "" -> ends_number c = true ->
  read_radix (s ++ String c r) = (10%Z, s ++ String c r).
Proof.
  intros A N E. destruct s as [|d [|d' s]]; [contradiction N; reflexivity | |].
  - cbn [all_digits] in A. apply andb_true_iff in A. destruct A as [Hd _].
    cbn [append].
    destruct d as [[] [] [] [] [] [] [] []]; try discriminate Hd;
      try reflexivity.
    destruct c as [[] [] [] [] [] [] [] []]; try discriminate E; reflexivity.
  - cbn [all_digits] in A. apply andb_true_iff in A. destruct A as [Hd A].
    apply andb_true_iff in A. destruct A as [Hd' _].
    cbn [append]. apply (digit_is_plain d Hd). exact Hd'.
Qed.

Lemma parseInt_prefix (s : string) (neg : bool) (c : ascii) (r : string) :
  all_digits s = true -> s <> "" -> ends_number c = true ->
  parseInt ((if neg then "-" else "") ++ s ++ String c r)
  = parseInt ((if neg then "-" else "") ++ s).
Proof.
  intros A N E.
  assert (is_digit c = false) as Nc.
  { unfold ends_number in E. apply andb_true_iff in E. destruct E as [E _].
    apply andb_true_iff in E. destruct E as [E _].
    apply negb_true_iff in E. exact E. }
  rewrite (parseInt_digits s neg A N).
  destruct s as [|d s']; [contradiction N; reflexivity|].
  pose proof A as A'. cbn [all_digits] in A'. apply andb_true_iff in A'.
  destruct A' as [Hd _].
  destruct (digit_is_plain d Hd) as (W & S & _).
  unfold parseInt. destruct neg.
  - change ("-" ++ String d s' ++ String c r)
      with (String "-" (String d s' ++ String c r)).
    change (trim_start (String "-" (String d s' ++ String c r)))
      with (String "-" (String d s' ++ String c r)).
    change (read_sign (String "-" (String d s' ++ String c r)))
      with (true, String d s' ++ String c r).
    cbv beta iota. rewrite (read_radix_stop _ c r A N E).
    rewrite (parse_digits_stop _ c r None A Nc). reflexivity.
  - change ("" ++ String d s' ++ String c r)
      with (String d (s' ++ String c r)).
    cbn [trim_start]. rewrite W, S. cbv beta iota.
    change (String d (s' ++ String c r)) with (String d s' ++ String c r).
    rewrite (read_radix_stop _ c r A N E).
    rewrite (parse_digits_stop _ c r None A Nc). reflexivity.
Qed.

(** X17: what follows the number of a choice is dropped.  For an integer
    [N] with [|N| < 2^53], the line [\c N] continued by any character that
    is neither a digit nor [x] or [X], and by any text, sends the same
    answer as [\c N] alone. *)
Theorem choice_ignores_what_follows (uq : string -> url_result) (eng : Engine)
    (N : Z) (c : ascii) (rest : string) (a : Assistant) :
  (- 2 ^ 53 < N < 2 ^ 53)%Z -> ends_number c = true ->
  _onLine uq eng (choice_line N ++ String c rest) a
  = (tt, subscribed no_reaction chain_prompt_done a,
     [invoke (next_promise a)
        (conversation_handleParsedCommand (spec_choice_json N))]).
Proof.
  intros H E. rewrite onLine_select.
  change (select (choice_line N ++ String c rest))
    with (br_choice (Z_decimal N ++ String c rest)).
  cbn [exec].
  assert (parseInt (Z_decimal N ++ String c rest)
          = finite (N <? 0)%Z (Z.abs N)) as ->.
  { rewrite <- (parseInt_decimal N H).
    assert (Z_decimal N
            = (if (N <? 0)%Z then "-" else "") ++ decimal (Z.abs N)) as ->.
    { unfold Z_decimal. destruct (N <? 0)%Z eqn:S; [reflexivity|].
      apply Z.ltb_ge in S. rewrite Z.abs_eq by lia. reflexivity. }
    destruct (decimal_shape (Z.abs N)) as (d & r & D & Hd & Hr); [lia|].
    rewrite append_append. apply parseInt_prefix; [|rewrite D; discriminate|exact E].
    rewrite D. cbn [all_digits]. rewrite Hd, Hr. reflexivity. }
  rewrite (stringify_choice (Z_decimal N))
    by (apply number_to_string_exact; exact H).
  unfold bind, subscribed. cbn. rewrite Nat.eqb_refl. reflexivity.
Qed.

Lemma choice_ignores_what_follows_witness :
  _onLine no_query sample_engine (choice_line 2 ++ " please") new_Assistant
  = (tt, subscribed no_reaction chain_prompt_done new_Assistant,
     [invoke 0 (conversation_handleParsedCommand (spec_choice_json 2))]).
Proof.
  apply (choice_ignores_what_follows no_query sample_engine 2 " " "please"
           new_Assistant).
  - split; reflexivity.
  - reflexivity.
Defined.

(** ** Blank lines *)

Lemma trim_start_blank (s : string) :
  trim_start s = "" <-> forallb is_white (list_ascii_of_string s) = true.
Proof.
  induction s as [|c r IH]; cbn [trim_start list_ascii_of_string forallb].
  - split; reflexivity.
  - destruct (is_white c); cbn [andb]; [exact IH|].
    split; discriminate.
Qed.

Lemma trim_start_head (s : string) :
  match trim_start s with
  | String c _ => is_white c = false
  | EmptyString => True
  end.
Proof.
  induction s as [|c r IH]; cbn [trim_start]; [exact I|].
  destruct (is_white c) eqn:E; [exact IH | exact E].
Qed.

Lemma trim_blank (s : string) :
  trim s = "" <-> forallb is_white (list_ascii_of_string s) = true.
Proof.
  rewrite <- trim_start_blank. unfold trim.
  pose proof (trim_start_head s) as H.
  destruct (trim_start s) as [|c r]; [split; reflexivity|].
  cbn [trim_end]. rewrite H. cbn [andb]. split; discriminate.
Qed.

(** X18: a line of this model is a string of code units below 256.  Among
    these lines, the ones that run nothing at all are exactly the lines
    made only of the code units that [trim] strips in that range (9 to
    13, 32 and 160), the empty line among them: they select no branch,
    and any other line selects one.  ([trim] also strips white space
    above 255, which these lines cannot hold.) *)
Theorem blank_lines_are_white_space (uq : string -> url_result) (eng : Engine)
    (line : string) (a : Assistant) :
  (select line = br_nothing
   <-> forallb is_white (list_ascii_of_string line) = true)
  /\ (forallb is_white (list_ascii_of_string line) = true ->
      _onLine uq eng line a = (tt, a, [rl_prompt])).
Proof.
  assert (select line = br_nothing <-> trim line = "") as S.
  { split.
    - unfold select.
      destruct (is_str (char_at line 0) "\").
      + repeat match goal with
               | |- context [if ?c then _ else _] => destruct c
               end; discriminate.
      + destruct (trim line); [reflexivity | discriminate].
    - apply select_blank. }
  split.
  - rewrite S. apply trim_blank.
  - intros W. apply trim_blank in W.
    rewrite onLine_select, (select_blank line W). reflexivity.
Qed.

Lemma blank_lines_are_white_space_witness :
  _onLine no_query sample_engine (String (ascii_of_nat 9) " ") new_Assistant
  = (tt, new_Assistant, [rl_prompt]).
Proof.
  apply (proj2 (blank_lines_are_white_space no_query sample_engine
                  (String (ascii_of_nat 9) " ") new_Assistant)).
  reflexivity.
Defined.

(** ** Results of the diagnostic queries *)

(** X19: each query of [\l] has only [console.log] chained on it, with
    no rejection handler and no [done].  When its result comes, whenever
    that is, the result is printed and no prompt is drawn; when it fails,
    this code prints nothing, draws no prompt and rethrows nothing: the
    rejection is left unhandled, and what becomes of it is up to the
    promise library of the information base.  All eight promises made by
    [\l] are of that kind. *)
Theorem diagnostic_failures_stay_unhandled (uq : string -> url_result)
    (eng : Engine) (a s : Assistant) (p : promise)
    (rest : list (promise * subscription)) (res : QueryResult) (e : error) :
  take p (promises s)
  = Some (mkSubscription on_ibase_result unchained, rest) ->
  settle p (fulfilled (val_result res)) s
  = Some (forget rest s, [console_log_result res])
  /\ settle p (rejected e) s
     = Some (forget rest s, [unhandled_rejection e])
  /\ map snd (firstn 8 (promises (state_of (_onLine uq eng "\l" a))))
     = repeat (mkSubscription on_ibase_result unchained) 8
  /\ skipn 8 (promises (state_of (_onLine uq eng "\l" a))) = promises a.
Proof.
  intros T. unfold settle. rewrite T. repeat split.
Qed.

Lemma diagnostic_failures_stay_unhandled_witness :
  settle 3 (rejected "no table")
    (state_of (_onLine no_query sample_engine "\l" new_Assistant))
  = Some (forget
            [(7, mkSubscription on_ibase_result unchained);
             (6, mkSubscription on_ibase_result unchained);
             (5, mkSubscription on_ibase_result unchained);
             (4, mkSubscription on_ibase_result unchained);
             (2, mkSubscription on_ibase_result unchained);
             (1, mkSubscription on_ibase_result unchained);
             (0, mkSubscription on_ibase_result unchained)]
            (state_of (_onLine no_query sample_engine "\l" new_Assistant)),
          [unhandled_rejection "no table"]).
Proof.
  apply (proj1 (proj2 (diagnostic_failures_stay_unhandled no_query
                         sample_engine new_Assistant
                         (state_of (_onLine no_query sample_engine "\l"
                                      new_Assistant))
                         3 _ (scalar 0) "no table" eq_refl))).
Defined.
